(** * The backtesting broker: fill rules, trade cost, cash settlement, clock

    A shallow embedding of [lumibot/backtesting/backtesting_broker.py].

    Conventions of the embedding.
    - Prices, quantities, fees and cash are Python floats and [Decimal]s in
      the source.  They are embedded as exact rationals [Q]; the
      conversions [Decimal(x)] and [float(x)] keep the value.  Comparisons
      are the boolean comparisons of [Q].
    - Strings stay strings: [side], [type], [order_class], [status],
      [asset_type] and [right] are compared against literals as in the
      source.
    - [Order] objects are shared and mutated in place (an order reaches its
      sibling through [dependent_order]).  They live in a store indexed by
      object identity, and every list of orders is a list of identities.
    - A Python exception ends the call; the outcome keeps the state reached
      when it was raised. *)

From Stdlib Require Import QArith Qabs Qminmax ZArith String List Bool Lia Lqa.
From stdpp Require Import base option gmap sorting.
From Equations Require Import Equations.

Import ListNotations.
Local Open Scope string_scope.
Local Open Scope Q_scope.

(** ** Python values *)

(** [Decimal(x)] of a float and [float(d)] of a decimal. *)
Definition Decimal (x : Q) : Q := x.
Definition float (x : Q) : Q := x.

(** Truth value of an optional number: [None] and zero are false. *)
Definition truthy (x : option Q) : bool :=
  match x with
  | None => false
  | Some q => negb (Qeq_bool q 0)
  end.

(** [x in [a, b, ...]] on strings. *)
Definition str_in (x : string) (l : list string) : bool :=
  existsb (String.eqb x) l.

Inductive Exn :=
| AttributeError
| IndexError
| TypeError
| ValueError
| ZeroDivisionError.

(** ** Fill rules *)

(** [limit_order(limit_price, side, open_, high, low)] *)
Definition limit_order (limit_price : Q) (side : string) (open_ high low : Q)
  : option Q :=
  if (side =? "sell")%string && Qle_bool limit_price open_ then Some open_
  else if (side =? "buy")%string && Qle_bool open_ limit_price then Some open_
  else if Qle_bool low limit_price && Qle_bool limit_price high
       then Some limit_price
  else None.

(** [stop_order(stop_price, side, open_, high, low)] *)
Definition stop_order (stop_price : Q) (side : string) (open_ high low : Q)
  : option Q :=
  if (side =? "sell")%string && Qle_bool open_ stop_price then Some open_
  else if (side =? "buy")%string && Qle_bool stop_price open_ then Some open_
  else if Qle_bool low stop_price && Qle_bool stop_price high
       then Some stop_price
  else None.

(** ** Entities *)

Record Asset := mkAsset {
  symbol : string;
  asset_type : string;
  expiration : option Z;        (* a date, as a day number *)
  strike : Q;
  right : string;
  multiplier : Z;
}.

Record TradingFee := mkTradingFee {
  flat_fee : Q;
  percent_fee : Q;
  maker : bool;
  taker : bool;
}.

(** The trail of a trailing stop: an absolute offset or a percentage. *)
Inductive Trail :=
| TrailPrice (amount : Q)
| TrailPercent (percent : Q).

Record Order := mkOrder {
  strategy : string;
  asset : Asset;
  quantity : Q;
  side : string;
  type : string;
  order_class : string;
  limit_price : option Q;
  stop_price : option Q;
  stop_loss_price : option Q;
  stop_loss_limit_price : option Q;
  take_profit_price : option Q;
  trail_amount : option Trail;
  quote : option Asset;
  status : string;
  price_triggered : bool;
  _trail_stop_price : option Q;
  trade_cost : option Q;
  dependent_order : option nat;           (* identity of the sibling *)
  dependent_order_filled : bool;
}.

Record Position := mkPosition {
  pos_strategy : string;
  pos_asset : Asset;
  pos_quantity : Q;
  pos_orders : list nat;
}.

(** One row of a price frame, and the frame ([Bars.df]). *)
Record Row := mkRow {
  index : Z;
  open : Q;
  high : Q;
  low : Q;
  close : Q;
  volume : Q;
}.

Record Bars := mkBars { df : list Row }.

(** Field assignments on an [Order] object. *)
Definition set_status (s : string) (o : Order) : Order :=
  mkOrder (strategy o) (asset o) (quantity o) (side o) (type o)
    (order_class o) (limit_price o) (stop_price o) (stop_loss_price o)
    (stop_loss_limit_price o) (take_profit_price o) (trail_amount o) (quote o)
    s (price_triggered o) (_trail_stop_price o) (trade_cost o)
    (dependent_order o) (dependent_order_filled o).

Definition set_price_triggered (b : bool) (o : Order) : Order :=
  mkOrder (strategy o) (asset o) (quantity o) (side o) (type o)
    (order_class o) (limit_price o) (stop_price o) (stop_loss_price o)
    (stop_loss_limit_price o) (take_profit_price o) (trail_amount o) (quote o)
    (status o) b (_trail_stop_price o) (trade_cost o)
    (dependent_order o) (dependent_order_filled o).

Definition set_trail_stop_price (p : option Q) (o : Order) : Order :=
  mkOrder (strategy o) (asset o) (quantity o) (side o) (type o)
    (order_class o) (limit_price o) (stop_price o) (stop_loss_price o)
    (stop_loss_limit_price o) (take_profit_price o) (trail_amount o) (quote o)
    (status o) (price_triggered o) p (trade_cost o)
    (dependent_order o) (dependent_order_filled o).

Definition set_trade_cost (c : option Q) (o : Order) : Order :=
  mkOrder (strategy o) (asset o) (quantity o) (side o) (type o)
    (order_class o) (limit_price o) (stop_price o) (stop_loss_price o)
    (stop_loss_limit_price o) (take_profit_price o) (trail_amount o) (quote o)
    (status o) (price_triggered o) (_trail_stop_price o) c
    (dependent_order o) (dependent_order_filled o).

Definition set_dependent_order (d : option nat) (o : Order) : Order :=
  mkOrder (strategy o) (asset o) (quantity o) (side o) (type o)
    (order_class o) (limit_price o) (stop_price o) (stop_loss_price o)
    (stop_loss_limit_price o) (take_profit_price o) (trail_amount o) (quote o)
    (status o) (price_triggered o) (_trail_stop_price o) (trade_cost o)
    d (dependent_order_filled o).

Definition set_dependent_order_filled (b : bool) (o : Order) : Order :=
  mkOrder (strategy o) (asset o) (quantity o) (side o) (type o)
    (order_class o) (limit_price o) (stop_price o) (stop_loss_price o)
    (stop_loss_limit_price o) (take_profit_price o) (trail_amount o) (quote o)
    (status o) (price_triggered o) (_trail_stop_price o) (trade_cost o)
    (dependent_order o) b.

(** Modelled from the spec: the constructor of [lumibot.entities.Order]
    (the class is not among the sources).  A new order is [unprocessed],
    simple ([order_class = ""]), untriggered and unlinked; its type follows
    the prices it is given: both a stop and a limit price make a
    [stop_limit], a stop price alone a [stop], a limit price alone a
    [limit], neither a [market] order. *)
Definition new_Order (strategy : string) (asset : Asset) (quantity : Q)
    (side : string) (stop_price limit_price : option Q)
    (quote : option Asset) : Order :=
  let type :=
    match stop_price, limit_price with
    | Some _, Some _ => "stop_limit"
    | Some _, None => "stop"
    | None, Some _ => "limit"
    | None, None => "market"
    end in
  mkOrder strategy asset quantity side type "" limit_price stop_price
    None None None None quote "unprocessed" false None None None false.

(** Modelled from the spec: [Asset(symbol=..., asset_type="stock")], the
    constructor of [lumibot.entities.Asset] with its defaults (no
    expiration, no option fields). *)
Definition stock_Asset (symbol : string) : Asset :=
  mkAsset symbol "stock" None 0 "" 1.

(** Modelled from the spec: [Order.update_trail_stop_price] (section 4.3.1,
    trailing_stop).  The candidate stop is the price less the trail for a
    sell order and the price plus the trail for a buy order; an unset
    [_trail_stop_price] takes the candidate, a set one only ratchets:
    upwards ([max]) for a sell, downwards ([min]) for a buy. *)
Definition trail_candidate (t : Trail) (side : string) (price : Q) : Q :=
  match t with
  | TrailPrice a =>
      if (side =? "buy")%string then price + a else price - a
  | TrailPercent p =>
      if (side =? "buy")%string then price + price * p else price - price * p
  end.

Definition update_trail_stop_price (price : Q) (o : Order) : Order :=
  match trail_amount o with
  | None => o
  | Some t =>
      let candidate := trail_candidate t (side o) price in
      match _trail_stop_price o with
      | None => set_trail_stop_price (Some candidate) o
      | Some current =>
          if (side o =? "buy")%string
          then set_trail_stop_price (Some (Qmin current candidate)) o
          else set_trail_stop_price (Some (Qmax current candidate)) o
      end
  end.

(** ** The data source, the strategy and the broker state *)

(** [data_source.SOURCE].  The broker reads bars for the sources
    ["CCXT"], ["YAHOO"] (compared after [upper()]) and ["PANDAS"]; these
    are the sources of the embedding. *)
Inductive Source := CCXT | YAHOO | PANDAS.

Definition Source_eqb (a b : Source) : bool :=
  match a, b with
  | CCXT, CCXT | YAHOO, YAHOO | PANDAS, PANDAS => true
  | _, _ => false
  end.

(** The backtesting data source as the broker sees it on one tick.
    [get_historical_prices asset quote] is the frame the strategy returns
    for the request the broker makes for that asset at the current time
    ([None] when there is none); [get_last_price] is the last price of an
    asset. *)
Record DataSource := mkDataSource {
  SOURCE : Source;
  _timestep : string;
  datetime_start : Z;
  datetime_end : Z;
  get_historical_prices : Asset -> option Asset -> option Bars;
  get_last_price : Asset -> option Q;
}.

Record Strategy := mkStrategy {
  name : string;
  buy_trading_fees : list TradingFee;
  sell_trading_fees : list TradingFee;
  minutes_before_closing : Z;
}.

(** An event on the stream: its kind and its payload. *)
Record Event := mkEvent {
  ev_kind : string;
  ev_order : nat;
  ev_price : option Q;
  ev_filled_quantity : option Q;
}.

(** Modelled from the spec: the event kinds of the base [Broker] class
    (not among the sources).  The kind of an event is also the status its
    handler gives the order: [new], [filled], [canceled]. *)
Definition NEW_ORDER : string := "new".
Definition FILLED_ORDER : string := "filled".
Definition CANCELED_ORDER : string := "canceled".
Definition CASH_SETTLED : string := "cash_settled".

(** The mutable state: the store of [Order] objects, the broker's
    collections, the strategy's cash, the stream and the clock.  Times are
    seconds, dates are days ([date_of]). *)
Record State := mkState {
  orders : gmap nat Order;
  next_id : nat;
  _new_orders : list nat;
  positions : list Position;
  cash : Q;
  stream : list Event;
  datetime : Z;
  _trading_days : list (Z * Z);     (* market_open, market_close *)
}.

Definition set_orders (m : gmap nat Order) (st : State) : State :=
  mkState m (next_id st) (_new_orders st) (positions st) (cash st)
    (stream st) (datetime st) (_trading_days st).

Definition set_next_id (n : nat) (st : State) : State :=
  mkState (orders st) n (_new_orders st) (positions st) (cash st)
    (stream st) (datetime st) (_trading_days st).

Definition set_new_orders (l : list nat) (st : State) : State :=
  mkState (orders st) (next_id st) l (positions st) (cash st)
    (stream st) (datetime st) (_trading_days st).

(** [strategy._set_cash_position(cash)] *)
Definition _set_cash_position (c : Q) (st : State) : State :=
  mkState (orders st) (next_id st) (_new_orders st) (positions st) c
    (stream st) (datetime st) (_trading_days st).

Definition set_stream (l : list Event) (st : State) : State :=
  mkState (orders st) (next_id st) (_new_orders st) (positions st) (cash st)
    l (datetime st) (_trading_days st).

Definition set_datetime (t : Z) (st : State) : State :=
  mkState (orders st) (next_id st) (_new_orders st) (positions st) (cash st)
    (stream st) t (_trading_days st).

(** Assignment to a field of the object [oid]. *)
Definition update_order (oid : nat) (f : Order -> Order) (st : State) : State :=
  set_orders (alter f oid (orders st)) st.

(** A new object in the store. *)
Definition alloc (o : Order) (st : State) : State * nat :=
  (set_next_id (S (next_id st)) (set_orders (<[next_id st := o]> (orders st)) st),
   next_id st).

(** The outcome of a call: it returns, or raises from the state reached. *)
Inductive outcome :=
| Done (st : State)
| Raised (e : Exn) (st : State).

Inductive result (A : Type) :=
| Ok (a : A)
| Raise (e : Exn).
Arguments Ok {A} a.
Arguments Raise {A} e.

#[global] Instance result_bind : MBind result := fun A B k r =>
  match r with
  | Ok a => k a
  | Raise e => Raise e
  end.

#[global] Instance result_ret : MRet result := fun A a => Ok a.

(** ** The event stream *)

(** Modelled from the spec: the status transition an event handler makes
    (section 3: once an order is filled or canceled it makes no further
    transition). *)
Definition transition (s : string) (o : Order) : Order :=
  if str_in (status o) [FILLED_ORDER; CANCELED_ORDER] then o
  else set_status s o.

(** Modelled from the spec: [Broker._process_trade_event], reached through
    the four handlers of [_register_stream_events] (section 4.6; the method
    is not among the sources).  It makes the status transition of the
    event: [new], [filled] or [canceled].  A cash settlement acts on the
    position only.  The position accounting of the handler is not part of
    this development. *)
Definition _process_trade_event (ev : Event) (st : State) : State :=
  if (ev_kind ev =? NEW_ORDER)%string
  then update_order (ev_order ev) (transition NEW_ORDER) st
  else if (ev_kind ev =? FILLED_ORDER)%string
  then update_order (ev_order ev) (transition FILLED_ORDER) st
  else if (ev_kind ev =? CANCELED_ORDER)%string
  then update_order (ev_order ev) (transition CANCELED_ORDER) st
  else st.

(** [stream.dispatch(kind, ...)]: the event is published and its handler
    runs at once. *)
Definition dispatch (ev : Event) (st : State) : State :=
  _process_trade_event ev (set_stream (stream st ++ [ev]) st).

(** [cancel_order(order)] *)
Definition cancel_order (oid : nat) (st : State) : State :=
  dispatch (mkEvent CANCELED_ORDER oid None None) st.

(** Modelled from the spec: [Broker.get_tracked_orders] (not among the
    sources): the tracked collection, in insertion order.  The embedding
    has one strategy, so the filter on the strategy's name keeps every
    order. *)
Definition get_tracked_orders (st : State) : list nat := _new_orders st.

(** ** The clock *)

Inductive UpdateDt :=
| Timedelta (seconds : Z)       (* a [timedelta] *)
| Number (seconds : Z)          (* an [int] or a [float] of seconds *)
| Datetime (t : Z).             (* anything else: the new time itself *)

(** [datetime.date()] *)
Definition date_of (t : Z) : Z := (t / 86400)%Z.

(** Modelled from the spec: [DataSourceBacktesting._update_datetime] (not
    among the sources) stores the time it is given. *)
Definition data_source_update_datetime (new_datetime : Z) (st : State) : State :=
  set_datetime new_datetime st.

(** [_update_datetime(update_dt)] *)
Definition _update_datetime (update_dt : UpdateDt) (st : State) : State :=
  let new_datetime :=
    match update_dt with
    | Timedelta d => (datetime st + d)%Z
    | Number s => (datetime st + s)%Z
    | Datetime t => t
    end in
  data_source_update_datetime new_datetime st.

(** [should_continue()] *)
Definition should_continue (ds : DataSource) (st : State) : bool :=
  if (datetime_end ds <=? datetime st)%Z then false else true.

(** [get_time_to_open()], in seconds *)
Definition get_time_to_open (ds : DataSource) (st : State) : Z :=
  let now := datetime st in
  let search := List.filter (fun d => (now <? snd d)%Z) (_trading_days st) in
  match search with
  | [] => 0%Z
  | trading_day :: _ =>
      let open_time := fst trading_day in
      let open_time :=
        if (open_time <? now)%Z then datetime_start ds else open_time in
      if (open_time <=? now)%Z then 0%Z else (open_time - now)%Z
  end.

(** [get_time_to_close()], in seconds; [None] before the session opens *)
Definition get_time_to_close (st : State) : option Z :=
  let now := datetime st in
  let search := List.filter (fun d => (now <=? snd d)%Z) (_trading_days st) in
  match search with
  | [] => Some 0%Z
  | trading_day :: _ =>
      if (now <? fst trading_day)%Z then None
      else Some (snd trading_day - now)%Z
  end.

(** ** Derived orders *)

Definition opposite (side : string) : string :=
  if (side =? "buy")%string then "sell" else "buy".

(** [_flatten_order(order)]: the derived orders, as new objects. *)
Definition _flatten_order (oid : nat) (st : State) : State * list nat :=
  match orders st !! oid with
  | None => (st, [])
  | Some order =>
      if (order_class order =? "")%string then
        if truthy (stop_price order) then
          let '(st, stop_loss_order) :=
            alloc (new_Order (strategy order) (asset order) (quantity order)
                     (side order) (stop_price order) None (quote order)) st in
          (st, [oid; stop_loss_order])
        else (st, [oid])
      else if (order_class order =? "oco")%string then
        let '(st, stop_loss_order) :=
          alloc (new_Order (strategy order) (asset order) (quantity order)
                   (side order) (stop_loss_price order) None (quote order)) st in
        let '(st, limit_order) :=
          alloc (new_Order (strategy order) (asset order) (quantity order)
                   (side order) None (take_profit_price order) (quote order)) st in
        let st := update_order stop_loss_order
                    (set_dependent_order (Some limit_order)) st in
        let st := update_order limit_order
                    (set_dependent_order (Some stop_loss_order)) st in
        (st, [stop_loss_order; limit_order])
      else if str_in (order_class order) ["bracket"; "oto"] then
        let side := opposite (side order) in
        let is_bracket := (order_class order =? "bracket")%string in
        let is_oto := (order_class order =? "oto")%string in
        let '(st, stop_loss_order) :=
          if is_bracket || (is_oto && truthy (stop_loss_price order)) then
            let '(st, i) :=
              alloc (new_Order (strategy order) (asset order) (quantity order)
                       side (stop_loss_price order)
                       (stop_loss_limit_price order) (quote order)) st in
            (st, [i])
          else (st, []) in
        let '(st, limit_order) :=
          if is_bracket || (is_oto && truthy (take_profit_price order)) then
            let '(st, i) :=
              alloc (new_Order (strategy order) (asset order) (quantity order)
                       side None (take_profit_price order) (quote order)) st in
            (st, [i])
          else (st, []) in
        let st :=
          match is_bracket, stop_loss_order, limit_order with
          | true, [s], [l] =>
              update_order l (set_dependent_order (Some s))
                (update_order s (set_dependent_order (Some l)) st)
          | _, _, _ => st
          end in
        (st, (stop_loss_order ++ limit_order)%list)
      else (st, [])
  end.

(** ** Trade cost *)

(** One turn of the loop over the fees. *)
Definition add_trading_fee (o : Order) (price : Q) (trade_cost : Q)
    (trading_fee : TradingFee) : Q :=
  if taker trading_fee && str_in (type o) ["market"; "stop"] then
    (trade_cost + flat_fee trading_fee)
    + Decimal price * Decimal (quantity o) * percent_fee trading_fee
  else if maker trading_fee && str_in (type o) ["limit"; "stop_limit"] then
    (trade_cost + flat_fee trading_fee)
    + Decimal price * Decimal (quantity o) * percent_fee trading_fee
  else trade_cost.

Definition side_fees (o : Order) (s : Strategy) : list TradingFee :=
  if (side o =? "buy")%string then buy_trading_fees s
  else if (side o =? "sell")%string then sell_trading_fees s
  else [].

(** [calculate_trade_cost(order, strategy, price)] *)
Definition calculate_trade_cost (o : Order) (s : Strategy) (price : Q) : Q :=
  fold_left (add_trading_fee o price) (side_fees o s) 0.

(** ** Option cash settlement *)

Definition Qlt_bool (a b : Q) : bool := negb (Qle_bool b a).

(** [a / b] of Python: division by zero raises. *)
Definition py_div (a b : Q) : result Q :=
  if Qeq_bool b 0 then Raise ZeroDivisionError else Ok (a / b).

(** Modelled from the spec: [strategy.create_order(asset, quantity, side)]
    (the strategy is an external collaborator): a new market order of the
    strategy. *)
Definition create_order (s : Strategy) (asset : Asset) (quantity : Q)
    (side : string) (st : State) : State * nat :=
  alloc (new_Order (name s) asset quantity side None None None) st.

(** The profit or loss of the position, before the adjustment. *)
Definition position_profit_loss (position : Position) (underlying_price : Q) : Q :=
  let profit_loss_per_contract :=
    if (right (pos_asset position) =? "CALL")%string
    then underlying_price - strike (pos_asset position)
    else strike (pos_asset position) - underlying_price in
  profit_loss_per_contract * pos_quantity position
  * inject_Z (multiplier (pos_asset position)).

(** The adjustment: a long position does not lose, a short one does not
    gain. *)
Definition adjust_profit_loss (quantity profit_loss : Q) : Q :=
  if Qlt_bool 0 quantity && Qlt_bool profit_loss 0 then 0
  else if Qlt_bool quantity 0 && Qlt_bool 0 profit_loss then 0
  else profit_loss.

(** [cash_settle_options_contract(position, strategy)], for the
    backtesting broker ([IS_BACKTESTING_BROKER] is true). *)
Definition cash_settle_options_contract (ds : DataSource) (s : Strategy)
    (position : Position) (st : State) : outcome :=
  if negb (asset_type (pos_asset position) =? "option")%string then Done st
  else
    let underlying_asset := stock_Asset (symbol (pos_asset position)) in
    match get_last_price ds underlying_asset with
    | None => Raised TypeError st
    | Some underlying_price =>
        let profit_loss := position_profit_loss position underlying_price in
        let profit_loss := adjust_profit_loss (pos_quantity position) profit_loss in
        let new_cash := cash st + profit_loss in
        let st := _set_cash_position new_cash st in
        let side :=
          if Qlt_bool 0 (pos_quantity position) then "sell" else "buy" in
        let '(st, order) :=
          create_order s (pos_asset position) (Qabs (pos_quantity position))
            side st in
        match
          x ← py_div profit_loss (pos_quantity position);
          py_div x (inject_Z (multiplier (pos_asset position)))
        with
        | Raise e => Raised e st
        | Ok per_contract =>
            Done (dispatch
                    (mkEvent CASH_SETTLED order (Some (Qabs per_contract))
                       (Some (Qabs (pos_quantity position)))) st)
        end
    end.

(** Modelled from the spec: [Broker.get_tracked_positions] (not among the
    sources): the positions the broker holds. *)
Definition get_tracked_positions (st : State) : list Position := positions st.

(** The loop of [process_expired_option_contracts] over the positions. *)
Fixpoint expire_positions (ds : DataSource) (s : Strategy)
    (ps : list Position) (st : State) : outcome :=
  match ps with
  | [] => Done st
  | position :: rest =>
      let continue := expire_positions ds s rest in
      match expiration (pos_asset position) with
      | None => continue st
      | Some expiration =>
          if (expiration <=? date_of (datetime st))%Z then
            match get_time_to_close st with
            | None => continue st
            | Some time_to_close =>
                let seconds_before_closing :=
                  (minutes_before_closing s * 60)%Z in
                if (expiration =? date_of (datetime st))%Z
                   && (seconds_before_closing <? time_to_close)%Z
                then continue st
                else
                  match cash_settle_options_contract ds s position st with
                  | Done st => continue st
                  | Raised e st => Raised e st
                  end
            end
          else continue st
      end
  end.

(** [process_expired_option_contracts(strategy)] *)
Definition process_expired_option_contracts (ds : DataSource) (s : Strategy)
    (st : State) : outcome :=
  if negb (Source_eqb (SOURCE ds) PANDAS) then Done st
  else expire_positions ds s (get_tracked_positions st) st.

(** ** Evaluation of the pending orders *)

(** [ohlc.df]: an attribute of [None] raises. *)
Definition attr_df (ohlc : option Bars) : result (list Row) :=
  match ohlc with
  | Some bars => Ok (df bars)
  | None => Raise AttributeError
  end.

(** [l[0]] and [l[-1]]: out of range raises. *)
Definition first_row (l : list Row) : result Row :=
  match head l with
  | Some r => Ok r
  | None => Raise IndexError
  end.

Definition last_row (l : list Row) : result Row :=
  match last l with
  | Some r => Ok r
  | None => Raise IndexError
  end.

(** [df.iloc[-1:]] *)
Definition iloc_last (l : list Row) : list Row :=
  match last l with
  | Some r => [r]
  | None => []
  end.

(** The bar of an order (the block "Get OHLCV data for the asset").
    [Ok None] is the path that cancels the order and continues.  The
    request names the asset of the order, paired with its quote for a
    crypto asset, and the quote again: [get_historical_prices] is given
    both. *)
Definition get_bar (ds : DataSource) (now : Z) (order : Order)
  : result (option Row) :=
  match SOURCE ds with
  | CCXT | YAHOO =>
      let ohlc := get_historical_prices ds (asset order) (quote order) in
      d ← attr_df ohlc;
      r ← last_row d;
      mret (Some r)
  | PANDAS =>
      let ohlc := get_historical_prices ds (asset order) (quote order) in
      df_original ← attr_df ohlc;
      let d := List.filter (fun r => (now <=? index r)%Z) df_original in
      let d := match d with [] => iloc_last df_original | _ => d end in
      match ohlc with
      | None => mret None
      | Some _ =>
          r ← first_row d;
          mret (Some r)
      end
  end.

(** A call of [limit_order] or [stop_order] with the price the order
    carries: comparing [None] with a number raises. *)
Definition call_limit_order (limit_price : option Q) (side : string)
    (open_ high low : Q) : result (option Q) :=
  match limit_price with
  | Some p => Ok (limit_order p side open_ high low)
  | None => Raise TypeError
  end.

Definition call_stop_order (stop_price : option Q) (side : string)
    (open_ high low : Q) : result (option Q) :=
  match stop_price with
  | Some p => Ok (stop_order p side open_ high low)
  | None => Raise TypeError
  end.

(** The block "Determine transaction price": the price, if any, and the
    order as the block leaves it. *)
Definition transaction_price (order : Order) (bar : Row)
  : result (option Q * Order) :=
  let open := open bar in
  let high := high bar in
  let low := low bar in
  if (type order =? "market")%string then
    Ok (Some open, order)
  else if (type order =? "limit")%string then
    price ← call_limit_order (limit_price order) (side order) open high low;
    mret (price, order)
  else if (type order =? "stop")%string then
    price ← call_stop_order (stop_price order) (side order) open high low;
    mret (price, order)
  else if (type order =? "stop_limit")%string then
    if negb (price_triggered order) then
      price ← call_stop_order (stop_price order) (side order) open high low;
      match price with
      | Some trigger =>
          price ← call_limit_order (limit_price order) (side order)
                    trigger high low;
          mret (price, set_price_triggered true order)
      | None => mret (None, order)
      end
    else
      price ← call_limit_order (limit_price order) (side order) open high low;
      mret (price, order)
  else if (type order =? "trailing_stop")%string then
    price ← (if truthy (_trail_stop_price order)
             then call_stop_order (_trail_stop_price order) (side order)
                    open high low
             else mret None);
    let order :=
      if (side order =? "sell")%string then update_trail_stop_price high order
      else if (side order =? "buy")%string then update_trail_stop_price low order
      else order in
    mret (price, order)
  else Raise ValueError.

(** The block "Fill the order", in its four steps. *)
Definition cancel_dependent (order : Order) (st : State) : State :=
  match dependent_order order with
  | Some d =>
      cancel_order d (update_order d (set_dependent_order_filled true) st)
  | None => st
  end.

Definition expand_children (oid : nat) (order : Order) (st : State) : State :=
  if str_in (order_class order) ["bracket"; "oto"] then
    let '(st, flat) := _flatten_order oid st in
    set_new_orders (_new_orders st ++ flat)%list st
  else st.

Definition charge_trade_cost (s : Strategy) (oid : nat) (order : Order)
    (price : Q) (st : State) : State :=
  let trade_cost := calculate_trade_cost order s price in
  let new_cash := cash st - float trade_cost in
  let st := _set_cash_position new_cash st in
  update_order oid (set_trade_cost (Some (float trade_cost))) st.

Definition fill_order (s : Strategy) (oid : nat) (order : Order) (price : Q)
    (st : State) : State :=
  let filled_quantity := quantity order in
  let st := cancel_dependent order st in
  let st := expand_children oid order st in
  let st := charge_trade_cost s oid order price st in
  dispatch (mkEvent FILLED_ORDER oid (Some price) (Some filled_quantity)) st.

(** One turn of the loop over the pending orders. *)
Definition evaluate_order (ds : DataSource) (s : Strategy) (oid : nat)
    (st : State) : outcome :=
  match orders st !! oid with
  | None => Done st
  | Some order =>
      if dependent_order_filled order
         || (status order =? CANCELED_ORDER)%string
      then Done st
      else
        match get_bar ds (datetime st) order with
        | Raise e => Raised e st
        | Ok None => Done (cancel_order oid st)
        | Ok (Some bar) =>
            match transaction_price order bar with
            | Raise e => Raised e st
            | Ok (price, order) =>
                let st := update_order oid (fun _ => order) st in
                match price with
                | Some price => Done (fill_order s oid order price st)
                | None => Done st
                end
            end
        end
  end.

Fixpoint evaluate_orders (ds : DataSource) (s : Strategy)
    (pending_orders : list nat) (st : State) : outcome :=
  match pending_orders with
  | [] => Done st
  | oid :: rest =>
      match evaluate_order ds s oid st with
      | Done st => evaluate_orders ds s rest st
      | Raised e st => Raised e st
      end
  end.

Definition is_pending (st : State) (oid : nat) : bool :=
  match orders st !! oid with
  | Some order => str_in (status order) ["unprocessed"; "new"]
  | None => false
  end.

(** [process_pending_orders(strategy)] *)
Definition process_pending_orders (ds : DataSource) (s : Strategy)
    (st : State) : outcome :=
  match process_expired_option_contracts ds s st with
  | Raised e st => Raised e st
  | Done st =>
      let pending_orders :=
        List.filter (is_pending st) (get_tracked_orders st) in
      evaluate_orders ds s pending_orders st
  end.

(** ** Waiting for the market *)

(** [_await_market_to_open(timedelta, strategy)] *)
Definition _await_market_to_open (ds : DataSource) (s : Strategy)
    (timedelta : option Z) (st : State) : outcome :=
  if Source_eqb (SOURCE ds) PANDAS && (_timestep ds =? "day")%string
  then Done st
  else
    match process_pending_orders ds s st with
    | Raised e st => Raised e st
    | Done st =>
        let time_to_open := get_time_to_open ds st in
        let time_to_open :=
          match timedelta with
          | Some t => if (t =? 0)%Z then time_to_open
                      else (time_to_open - 60 * t)%Z
          | None => time_to_open
          end in
        Done (_update_datetime (Number time_to_open) st)
    end.

(** [_await_market_to_close(timedelta, strategy)] *)
Definition _await_market_to_close (ds : DataSource) (s : Strategy)
    (timedelta : option Z) (st : State) : outcome :=
  if Source_eqb (SOURCE ds) PANDAS && (_timestep ds =? "day")%string
  then Done st
  else
    match process_pending_orders ds s st with
    | Raised e st => Raised e st
    | Done st =>
        let result := get_time_to_close st in
        let time_to_close :=
          match result with
          | None => 0%Z
          | Some r => r
          end in
        let time_to_close :=
          match timedelta with
          | Some t => (time_to_close - 60 * t)%Z
          | None => time_to_close
          end in
        Done (_update_datetime (Number time_to_close) st)
    end.

(** The minutes a caller of the await functions asks to stop short. *)
Definition offset_minutes (timedelta : option Z) : Z :=
  match timedelta with
  | Some t => t
  | None => 0%Z
  end.

(** ** Runs of the broker *)

(** What the strategy loop asks of the broker between two iterations. *)
Inductive Call :=
| ProcessPendingOrders (ds : DataSource)
| AwaitMarketToOpen (ds : DataSource) (timedelta : option Z)
| AwaitMarketToClose (ds : DataSource) (timedelta : option Z)
| UpdateDatetime (update_dt : UpdateDt)
| CancelOrder (oid : nat).

Definition call (s : Strategy) (c : Call) (st : State) : outcome :=
  match c with
  | ProcessPendingOrders ds => process_pending_orders ds s st
  | AwaitMarketToOpen ds t => _await_market_to_open ds s t st
  | AwaitMarketToClose ds t => _await_market_to_close ds s t st
  | UpdateDatetime d => Done (_update_datetime d st)
  | CancelOrder oid => Done (cancel_order oid st)
  end.

(** A run stops at the first exception. *)
Fixpoint run (s : Strategy) (calls : list Call) (st : State) : outcome :=
  match calls with
  | [] => Done st
  | c :: rest =>
      match call s c st with
      | Done st => run s rest st
      | Raised e st => Raised e st
      end
  end.

(** The state a call ends in, returned or raised. *)
Definition final (o : outcome) : State :=
  match o with
  | Done st => st
  | Raised _ st => st
  end.

(** ** Observations on a state *)

(** A [FILLED_ORDER] or a [CANCELED_ORDER] event for an order is on the
    stream. *)
Definition published (kind : string) (oid : nat) (st : State) : bool :=
  existsb (fun ev => (ev_kind ev =? kind)%string && Nat.eqb (ev_order ev) oid)
    (stream st).

Definition status_of (oid : nat) (st : State) : option string :=
  status <$> orders st !! oid.

Definition flagged (oid : nat) (st : State) : bool :=
  match orders st !! oid with
  | Some o => dependent_order_filled o
  | None => false
  end.

Definition sibling_of (oid : nat) (st : State) : option nat :=
  orders st !! oid ≫= dependent_order.

(** Two distinct orders, each the [dependent_order] of the other. *)
Definition oco_pair (a b : nat) (st : State) : Prop :=
  a <> b /\ sibling_of a st = Some b /\ sibling_of b st = Some a.

(** Object identities are handed out in order: every object of the store
    is older than [next_id]. *)
Definition store_ok (st : State) : Prop :=
  forall k, is_Some (orders st !! k) -> (k < next_id st)%nat.

(** The same, as a test on a given store. *)
Definition store_ok_check (st : State) : bool :=
  forallb (fun kv => Nat.ltb (fst kv) (next_id st)) (map_to_list (orders st)).

(** ** How a call may change the store and the stream *)

(** What never happens to an order object: its link changes, its flag is
    cleared, it leaves a canceled status, or it becomes filled. *)
Definition ages (o o' : Order) : Prop :=
  dependent_order o' = dependent_order o /\
  (dependent_order_filled o = true -> dependent_order_filled o' = true) /\
  (status o = CANCELED_ORDER -> status o' = CANCELED_ORDER) /\
  (status o' = FILLED_ORDER -> status o = FILLED_ORDER).

(** A step without a fill: the store keeps its objects, each one only
    [ages], and the stream grows by events other than fills. *)
Definition quiet (st st' : State) : Prop :=
  store_ok st ->
  store_ok st' /\
  (forall k o, orders st !! k = Some o ->
     exists o', orders st' !! k = Some o' /\ ages o o') /\
  (forall k, published FILLED_ORDER k st' = published FILLED_ORDER k st) /\
  (forall kind k, published kind k st = true -> published kind k st' = true).

(** The ways a turn of the loop over the pending orders can end: the order
    is passed over, the turn raises, the order is canceled for want of
    data, it stays pending, or it fills. *)
Inductive turn (s : Strategy) (oid : nat) (st : State) : outcome -> Prop :=
| turn_skip : turn s oid st (Done st)
| turn_raise e : turn s oid st (Raised e st)
| turn_cancel : turn s oid st (Done (cancel_order oid st))
| turn_wait order order' :
    orders st !! oid = Some order -> ages order order' ->
    turn s oid st (Done (update_order oid (fun _ => order') st))
| turn_fill order order' price :
    orders st !! oid = Some order -> ages order order' ->
    dependent_order_filled order = false ->
    turn s oid st
      (Done (fill_order s oid order' price
               (update_order oid (fun _ => order') st))).

(** ** The invariant of a pair of mutually dependent orders *)

(** Once [a] has filled, its sibling [b] is flagged and canceled and has
    not filled. *)
Definition fill_cancels (a b : nat) (st : State) : Prop :=
  published FILLED_ORDER a st = true ->
  flagged b st = true /\
  published CANCELED_ORDER b st = true /\
  status_of b st = Some CANCELED_ORDER /\
  published FILLED_ORDER b st = false.

(** An order has the status [filled] only through a published fill. *)
Definition status_follows_fill (a : nat) (st : State) : Prop :=
  status_of a st = Some FILLED_ORDER -> published FILLED_ORDER a st = true.

Definition pair_inv (a b : nat) (st : State) : Prop :=
  store_ok st /\ oco_pair a b st /\
  status_follows_fill a st /\ status_follows_fill b st /\
  fill_cancels a b st /\ fill_cancels b a st.

(** A step that leaves the clock and the calendar alone. *)
Definition same_clock (st st' : State) : Prop :=
  datetime st' = datetime st /\ _trading_days st' = _trading_days st.

(** ** The trade cost as the specification words it *)

(** The fee a fill owes for one entry of the fee list: the flat fee plus
    the percentage of the notional, for a taker fee on a market or stop
    order and for a maker fee on a limit or stop_limit order. *)
Definition spec_fee (o : Order) (price : Q) (fee : TradingFee) : Q :=
  if (taker fee && str_in (type o) ["market"; "stop"])
     || (maker fee && str_in (type o) ["limit"; "stop_limit"])
  then flat_fee fee + price * quantity o * percent_fee fee
  else 0.

Fixpoint spec_trade_cost (o : Order) (price : Q) (fees : list TradingFee) : Q :=
  match fees with
  | [] => 0
  | fee :: rest => spec_fee o price fee + spec_trade_cost o price rest
  end.

(** ** Further functions of the broker *)

(** [is_market_open()] *)
Definition is_market_open (st : State) : bool :=
  existsb (fun d => (fst d <=? datetime st)%Z && (datetime st <? snd d)%Z)
    (_trading_days st).

(** A fee that takes nothing away from a cost. *)
Definition fee_nonneg (fee : TradingFee) : Prop :=
  0 <= flat_fee fee /\ 0 <= percent_fee fee.

(** The order types [process_pending_orders] knows. *)
Definition order_types : list string :=
  ["market"; "limit"; "stop"; "stop_limit"; "trailing_stop"].

(** A position that [process_expired_option_contracts] has no cause to
    settle now: it does not expire, or expires after today, or the market
    has not opened, or it expires today with more than
    [minutes_before_closing] minutes left to the close, or it is not an
    option contract. *)
Definition not_due (s : Strategy) (st : State) (position : Position) : Prop :=
  expiration (pos_asset position) = None \/
  (exists e, expiration (pos_asset position) = Some e /\
             (date_of (datetime st) < e)%Z) \/
  get_time_to_close st = None \/
  (exists t, expiration (pos_asset position) = Some (date_of (datetime st)) /\
             get_time_to_close st = Some t /\
             (minutes_before_closing s * 60 < t)%Z) \/
  asset_type (pos_asset position) <> "option".

(** * The ThetaData helper: dates to fetch

    From [lumibot/tools/thetadata_helper.py].  A date is a day number, a
    time is in seconds ([date_of] gives its date), and the index of a
    frame holds times. *)

Module thetadata_helper.

Definition MAX_DAYS : Z := 30.

Section Calendar.

(** The market calendars are those of the library
    [pandas_market_calendars]: [schedule name start_date end_date] stands
    for the dates of the index of
    [mcal.get_calendar(name).schedule(start_date, end_date)]. *)
Variable schedule : string -> Z -> Z -> list Z.

(** [get_trading_dates(asset, start, end)] *)
Definition get_trading_dates (asset : Asset) (start end_ : Z)
  : result (list Z) :=
  if (asset_type asset =? "crypto")%string then
    Ok ((fun x => (date_of start + x)%Z)
          <$> seqZ 0 (date_of end_ - date_of start + 1))
  else if (asset_type asset =? "stock")%string
          || (asset_type asset =? "option")%string then
    Ok (schedule "NYSE" (date_of start) (date_of end_))
  else if (asset_type asset =? "forex")%string then
    Ok (schedule "CME_FX" (date_of start) (date_of end_))
  else Raise ValueError.

(** [get_missing_dates(df_all, asset, start, end)] *)
Definition get_missing_dates (df_all : option (list Row)) (asset : Asset)
    (start end_ : Z) : result (list Z) :=
  trading_dates ← get_trading_dates asset start end_;
  match df_all with
  | None => Ok trading_dates
  | Some [] => Ok trading_dates
  | Some rows =>
      let dates : gset Z :=
        list_to_set (List.map (fun r => date_of (index r)) rows) in
      let missing_dates :=
        merge_sort Z.le (elements (list_to_set trading_dates ∖ dates)) in
      if (asset_type asset =? "option")%string then
        match expiration asset, missing_dates with
        | Some e, _ => Ok (List.filter (fun x => (x <=? e)%Z) missing_dates)
        | None, [] => Ok []
        | None, _ :: _ => Raise TypeError
        end
      else Ok missing_dates
  end.

End Calendar.

(** The loop of [get_price_data] over the missing dates asks for one
    window of dates per turn.  A turn can raise, and the loop stops
    there. *)

(** What a call ends with: it returns a value or raises the exception of
    the given name. *)
Inductive attempt (A : Type) :=
| Returns (a : A)
| Raises (e : string).

Arguments Returns {A} a.
Arguments Raises {A} e.

(** [if end > start + delta: end = start + delta] *)
Definition clamp (start end_ : Z) : Z :=
  if (start + MAX_DAYS <? end_)%Z then (start + MAX_DAYS)%Z else end_.

(** [start = end + timedelta(days=1)] *)
Definition next_start (start end_ : Z) : Z := (clamp start end_ + 1)%Z.

(** [asset.expiration and start > asset.expiration] *)
Definition past_expiration (expiration : option Z) (start : Z) : bool :=
  match expiration with
  | Some e => (e <? start)%Z
  | None => false
  end.

Definition loop_measure (last start end_ : Z) : nat :=
  Z.to_nat (last - Z.min start (end_ + 1) + 1
            + (if (end_ <? start)%Z then 1 else 0)).

(** A turn's window put before the windows of the turns after it. *)
Definition asked {A} (window : Z * Z) (rest : list (Z * Z) * A)
  : list (Z * Z) * A :=
  (window :: fst rest, snd rest).

Section Requests.

(** The frames are those of pandas, [len] their number of rows.
    [fetch start_date end_date] stands for the rest of
    [get_historical_data] once the url is built: the call to [get_request]
    for the two dates and the frame made of the answer, [None] when
    [get_request] returns [None]; it can raise.  [update_df] is the
    function of that name; it can raise. *)
Variable Frame : Type.
Variable len : Frame -> nat.
Variable fetch : Z -> Z -> attempt (option Frame).
Variable update_df : option Frame -> Frame -> attempt (option Frame).

(** [get_historical_data(asset, start_dt, end_dt, ...)]: the url is bound
    for a stock and for an option only, and the expiration of an option is
    formatted before the request. *)
Definition get_historical_data (asset : Asset) (start_dt end_dt : Z)
  : attempt (option Frame) :=
  if (asset_type asset =? "stock")%string then fetch start_dt end_dt
  else if (asset_type asset =? "option")%string then
    match expiration asset with
    | None => Raises "AttributeError"
    | Some _ => fetch start_dt end_dt
    end
  else Raises "UnboundLocalError".

(** The request of a turn and what it does to [df_all]. *)
Definition loop_body (asset : Asset) (start end_ : Z)
    (df_all : option Frame) : attempt (option Frame) :=
  match get_historical_data asset start end_ with
  | Raises e => Raises e
  | Returns None => Returns df_all
  | Returns (Some result_df) =>
      if (len result_df =? 0)%nat then Returns df_all
      else update_df df_all result_df
  end.

(** The loop [while start <= missing_dates[-1]], from its state at the
    head of a turn: the windows [(start, end)] of its calls to
    [get_historical_data], in order, and what the loop ends with, the
    frame it leaves or the exception that stops it. *)
Equations? request_loop (asset : Asset) (last start end_ : Z)
    (df_all : option Frame)
  : list (Z * Z) * attempt (option Frame)
  by wf (loop_measure last start end_) lt :=
  request_loop asset last start end_ df_all
    with Z_le_gt_dec start last => {
    | Specif.right _ := ([], Returns df_all);
    | Specif.left _
        with loop_body asset start (clamp start end_) df_all => {
        | Raises e := ([(start, clamp start end_)], Raises e);
        | Returns df_next
            with past_expiration (expiration asset)
                   (next_start start end_) => {
            | true := ([(start, clamp start end_)], Returns df_next);
            | false :=
                asked (start, clamp start end_)
                  (request_loop asset last (next_start start end_)
                     (next_start start end_ + MAX_DAYS) df_next) } } }.
Proof.
  unfold loop_measure, next_start, clamp, MAX_DAYS.
  repeat match goal with |- context [(?a <? ?b)%Z] =>
    destruct (Z.ltb_spec a b) end; lia.
Qed.

(** The loop as [get_price_data] enters it, when there are missing dates:
    [start = missing_dates[0]] and [end = missing_dates[-1]]. *)
Definition request_windows (asset : Asset) (missing_dates : list Z)
    (df_all : option Frame) : list (Z * Z) * attempt (option Frame) :=
  match head missing_dates, last missing_dates with
  | Some first, Some final_date =>
      request_loop asset final_date first final_date df_all
  | _, _ => ([], Returns df_all)
  end.

End Requests.

End thetadata_helper.

(** * Properties *)

(** ** Comparisons *)

Lemma Qle_bool_false (a b : Q) : Qle_bool a b = false <-> ~ a <= b.
Proof.
  rewrite <- Qle_bool_iff. destruct (Qle_bool a b); split; congruence.
Qed.

Lemma Qlt_bool_iff (a b : Q) : Qlt_bool a b = true <-> a < b.
Proof.
  unfold Qlt_bool. rewrite negb_true_iff, Qle_bool_false.
  split; intros H; [apply Qnot_le_lt, H | apply Qlt_not_le, H].
Qed.

Lemma Qlt_bool_false (a b : Q) : Qlt_bool a b = false <-> b <= a.
Proof.
  unfold Qlt_bool. rewrite negb_false_iff. apply Qle_bool_iff.
Qed.

(** Turn the boolean tests in the context into order facts. *)
Ltac to_order :=
  repeat match goal with
  | H : Qle_bool _ _ = true |- _ => apply Qle_bool_iff in H
  | H : Qle_bool _ _ = false |- _ => apply Qle_bool_false in H
  | H : Qlt_bool _ _ = true |- _ => apply Qlt_bool_iff in H
  | H : Qlt_bool _ _ = false |- _ => apply Qlt_bool_false in H
  end.

(** Decide the tests of a fill rule by cases. *)
Ltac fill_cases :=
  repeat match goal with
  | |- context [Qle_bool ?a ?b] => destruct (Qle_bool a b) eqn:?
  end;
  simpl; to_order; try reflexivity; try (exfalso; lra).

(** ** Fill rules *)

(** C1. A sell stop fills at the open when the stop price is at or above
    the open, else at the stop price when it lies in the bar's range, else
    not at all; a buy stop fills at the open when the stop price is at or
    below the open, else at the stop price when it lies in the range, else
    not at all.  A stop equal to the open fills at the open. *)
Theorem stop_order_rule (S O H L : Q) :
  (O <= S -> stop_order S "sell" O H L = Some O) /\
  (~ O <= S -> L <= S <= H -> stop_order S "sell" O H L = Some S) /\
  (~ O <= S -> ~ L <= S <= H -> stop_order S "sell" O H L = None) /\
  (S <= O -> stop_order S "buy" O H L = Some O) /\
  (~ S <= O -> L <= S <= H -> stop_order S "buy" O H L = Some S) /\
  (~ S <= O -> ~ L <= S <= H -> stop_order S "buy" O H L = None) /\
  (S == O ->
   stop_order S "sell" O H L = Some O /\ stop_order S "buy" O H L = Some O).
Proof.
  unfold stop_order; simpl.
  repeat split; intros; fill_cases.
  all: try (exfalso; intuition lra).
Qed.

Lemma stop_order_rule_witness :
  (~ 100 <= 99 /\ 98 <= 99 <= 101) /\
  stop_order 99 "sell" 100 101 98 = Some 99.
Proof.
  assert (Hn : ~ 100 <= 99) by (intros H; vm_compute in H; apply H; reflexivity).
  assert (Hr : 98 <= 99 <= 101) by (split; intros H; discriminate H).
  split; [split; assumption |].
  apply (stop_order_rule 99 100 101 98); assumption.
Defined.

(** C2. A sell limit fills at the open when the limit price is at or below
    the open, else at the limit price when it lies in the bar's range, else
    not at all; a buy limit fills at the open when the limit price is at or
    above the open, else at the limit price when it lies in the range, else
    not at all.  On a bar whose open lies between its low and its high, a
    buy limit equal to the low and a sell limit equal to the high fill at
    the limit price. *)
Theorem limit_order_rule (P O H L : Q) :
  (P <= O -> limit_order P "sell" O H L = Some O) /\
  (~ P <= O -> L <= P <= H -> limit_order P "sell" O H L = Some P) /\
  (~ P <= O -> ~ L <= P <= H -> limit_order P "sell" O H L = None) /\
  (O <= P -> limit_order P "buy" O H L = Some O) /\
  (~ O <= P -> L <= P <= H -> limit_order P "buy" O H L = Some P) /\
  (~ O <= P -> ~ L <= P <= H -> limit_order P "buy" O H L = None) /\
  (L <= O <= H -> P == L ->
   exists price, limit_order P "buy" O H L = Some price /\ price == P) /\
  (L <= O <= H -> P == H ->
   exists price, limit_order P "sell" O H L = Some price /\ price == P).
Proof.
  unfold limit_order; simpl.
  repeat split; intros; fill_cases.
  all: try (exfalso; intuition lra).
  all: try (eexists; split; [reflexivity | lra]).
Qed.

Lemma limit_order_rule_witness :
  (93 <= 94 <= 96 /\ 93 == 93) /\
  exists price, limit_order 93 "buy" 94 96 93 = Some price /\ price == 93.
Proof.
  assert (Hb : 93 <= 94 <= 96) by (split; intros H; discriminate H).
  assert (He : 93 == 93) by reflexivity.
  split; [split; assumption |].
  apply (limit_order_rule 93 94 96 93); assumption.
Defined.

(** ** How a call may change the store and the stream *)

Lemma ages_refl o : ages o o.
Proof. unfold ages; tauto. Qed.

Lemma ages_trans o1 o2 o3 : ages o1 o2 -> ages o2 o3 -> ages o1 o3.
Proof. unfold ages; intuition congruence. Qed.

Create HintDb broker.
#[local] Hint Resolve ages_refl : broker.

Lemma quiet_refl st : quiet st st.
Proof.
  intros Hok; repeat split; auto.
  intros k o Hk; exists o; split; [assumption | apply ages_refl].
Qed.

Lemma quiet_trans st1 st2 st3 : quiet st1 st2 -> quiet st2 st3 -> quiet st1 st3.
Proof.
  intros H12 H23 Hok.
  destruct (H12 Hok) as (Hok2 & Ho12 & Hf12 & Hp12).
  destruct (H23 Hok2) as (Hok3 & Ho23 & Hf23 & Hp23).
  repeat split; auto.
  - intros k o Hk.
    destruct (Ho12 k o Hk) as (o2 & Hk2 & Ha2).
    destruct (Ho23 k o2 Hk2) as (o3 & Hk3 & Ha3).
    exists o3; split; [assumption | eapply ages_trans; eassumption].
  - intros k; rewrite Hf23; apply Hf12.
Qed.

(** An assignment that only ages the object is quiet. *)
Lemma quiet_update_order k f st :
  (forall o, ages o (f o)) -> quiet st (update_order k f st).
Proof.
  intros Hf Hok; repeat split; auto.
  - intros j Hj. apply Hok. simpl in Hj.
    rewrite lookup_alter_is_Some in Hj. exact Hj.
  - intros j o Hj. simpl. rewrite lookup_alter.
    destruct (decide (k = j)) as [<- | Hne]; rewrite Hj; simpl;
      eexists; split; try reflexivity; auto using ages_refl.
Qed.

Lemma quiet_alloc o st : quiet st (fst (alloc o st)).
Proof.
  intros Hok; simpl; repeat split; auto.
  - intros j Hj. simpl in *. rewrite lookup_insert_is_Some in Hj.
    destruct Hj as [<- | [_ Hj]]; [lia | apply Hok in Hj; lia].
  - intros j o' Hj. simpl. exists o'; split; [| apply ages_refl].
    rewrite lookup_insert_ne; [assumption |].
    intros <-. assert (next_id st < next_id st)%nat; [| lia].
    apply Hok. rewrite Hj. eauto.
Qed.

Lemma published_snoc kind k ev st :
  published kind k (set_stream (stream st ++ [ev]) st)
  = published kind k st
    || ((ev_kind ev =? kind)%string && Nat.eqb (ev_order ev) k).
Proof.
  unfold published; simpl. rewrite existsb_app; simpl.
  rewrite orb_false_r. reflexivity.
Qed.

Lemma dispatch_unfold ev st :
  dispatch ev st =
  let st1 := set_stream (stream st ++ [ev]) st in
  if (ev_kind ev =? NEW_ORDER)%string
  then update_order (ev_order ev) (transition NEW_ORDER) st1
  else if (ev_kind ev =? FILLED_ORDER)%string
  then update_order (ev_order ev) (transition FILLED_ORDER) st1
  else if (ev_kind ev =? CANCELED_ORDER)%string
  then update_order (ev_order ev) (transition CANCELED_ORDER) st1
  else st1.
Proof. reflexivity. Qed.

Lemma stream_dispatch ev st : stream (dispatch ev st) = (stream st ++ [ev])%list.
Proof.
  rewrite dispatch_unfold; simpl.
  repeat match goal with |- context [if ?c then _ else _] => destruct c end;
    reflexivity.
Qed.

Lemma published_dispatch kind k ev st :
  published kind k (dispatch ev st)
  = published kind k st
    || ((ev_kind ev =? kind)%string && Nat.eqb (ev_order ev) k).
Proof.
  rewrite <- published_snoc. unfold published.
  rewrite stream_dispatch. reflexivity.
Qed.

Lemma transition_ages s o : s <> FILLED_ORDER -> ages o (transition s o).
Proof.
  intros Hs. unfold transition, str_in; simpl.
  destruct (String.eqb_spec (status o) FILLED_ORDER) as [Hf | Hf]; simpl;
    [apply ages_refl |].
  destruct (String.eqb_spec (status o) CANCELED_ORDER) as [Hc | Hc]; simpl;
    [apply ages_refl |].
  unfold ages; simpl; repeat split; congruence.
Qed.

(** Publishing an event that is not a fill is quiet. *)
Lemma quiet_dispatch ev st :
  ev_kind ev <> FILLED_ORDER -> quiet st (dispatch ev st).
Proof.
  intros Hkind.
  assert (Hs : quiet st (set_stream (stream st ++ [ev]) st)).
  { intros Hok; repeat split; auto.
    - intros k o Hk; exists o; split; [exact Hk | apply ages_refl].
    - intros k. rewrite published_snoc.
      destruct (String.eqb_spec (ev_kind ev) FILLED_ORDER); [contradiction |].
      simpl. apply orb_false_r.
    - intros kind k Hp. rewrite published_snoc, Hp. reflexivity. }
  rewrite dispatch_unfold; cbv zeta.
  destruct (String.eqb_spec (ev_kind ev) NEW_ORDER).
  { eapply quiet_trans; [exact Hs |].
    apply quiet_update_order; intros o; apply transition_ages; discriminate. }
  destruct (String.eqb_spec (ev_kind ev) FILLED_ORDER); [contradiction |].
  destruct (String.eqb_spec (ev_kind ev) CANCELED_ORDER); [| exact Hs].
  eapply quiet_trans; [exact Hs |].
  apply quiet_update_order; intros o; apply transition_ages; discriminate.
Qed.

(** A step on the other components of the state is quiet. *)
Lemma quiet_same_store st st' :
  orders st' = orders st -> next_id st' = next_id st ->
  stream st' = stream st -> quiet st st'.
Proof.
  intros Ho Hn Hs Hok. unfold store_ok, published. rewrite Ho, Hn, Hs.
  repeat split; auto.
  intros k o Hk; exists o; split; [exact Hk | apply ages_refl].
Qed.

(** An assignment to an object made since [st] is quiet too. *)
Lemma quiet_update_fresh st st' k f :
  quiet st st' -> (next_id st <= k)%nat -> quiet st (update_order k f st').
Proof.
  intros Hq Hk Hok. destruct (Hq Hok) as (Hok' & Ho & Hf & Hp).
  repeat split; auto.
  - intros j Hj. apply Hok'. simpl in Hj.
    rewrite lookup_alter_is_Some in Hj. exact Hj.
  - intros j o Hj. destruct (Ho j o Hj) as (o' & Hj' & Ha).
    exists o'; split; [| exact Ha]. simpl.
    rewrite lookup_alter_ne; [exact Hj' |].
    intros ->. assert (j < next_id st)%nat; [| lia].
    apply Hok. rewrite Hj. eauto.
Qed.

Lemma alloc_spec o st st1 i :
  alloc o st = (st1, i) ->
  quiet st st1 /\ i = next_id st /\ next_id st1 = S (next_id st)
  /\ cash st1 = cash st /\ same_clock st st1.
Proof.
  intros H. pose proof (quiet_alloc o st) as Hq. rewrite H in Hq.
  unfold alloc in H. inversion H; subst.
  split; [exact Hq | repeat split].
Qed.

(** Split the conjunctions that are written out, and close the equations
    between components of states. *)
Ltac splits := repeat match goal with |- _ /\ _ => split end.
Ltac frames := unfold same_clock in *; simpl; intuition (simpl; congruence).

Lemma flatten_order_spec oid st :
  quiet st (fst (_flatten_order oid st))
  /\ cash (fst (_flatten_order oid st)) = cash st
  /\ same_clock st (fst (_flatten_order oid st)).
Proof.
  unfold _flatten_order.
  destruct (orders st !! oid) as [order |];
    [| split; [apply quiet_refl | frames]].
  destruct (order_class order =? "")%string.
  { destruct (truthy (stop_price order));
      [| split; [apply quiet_refl | frames]].
    destruct (alloc _ st) as [st1 i1] eqn:E1.
    apply alloc_spec in E1 as (Hq & _ & _ & Hc & Hk). simpl.
    split; [exact Hq | frames]. }
  destruct (order_class order =? "oco")%string.
  { destruct (alloc _ st) as [st1 i1] eqn:E1.
    destruct (alloc _ st1) as [st2 i2] eqn:E2.
    apply alloc_spec in E1 as (Hq1 & -> & Hn1 & Hc1 & Hk1).
    apply alloc_spec in E2 as (Hq2 & -> & Hn2 & Hc2 & Hk2).
    simpl. split; [| frames].
    apply quiet_update_fresh; [| lia].
    apply quiet_update_fresh; [| lia].
    eapply quiet_trans; eassumption. }
  destruct (str_in (order_class order) ["bracket"; "oto"]);
    [| split; [apply quiet_refl | frames]].
  set (c1 := (_ || _ && truthy (stop_loss_price order))%bool).
  set (c2 := (_ || _ && truthy (take_profit_price order))%bool).
  assert (H1 : exists st1 l1,
    (if c1 then
       let '(st0, i) :=
         alloc (new_Order (strategy order) (asset order) (quantity order)
                  (opposite (side order)) (stop_loss_price order)
                  (stop_loss_limit_price order) (quote order)) st in
       (st0, [i])
     else (st, [])) = (st1, l1)
    /\ quiet st st1 /\ (next_id st <= next_id st1)%nat
    /\ (forall i, In i l1 -> (next_id st <= i)%nat)
    /\ cash st1 = cash st /\ same_clock st st1).
  { destruct c1.
    - destruct (alloc _ st) as [st1 i1] eqn:E1.
      apply alloc_spec in E1 as (Hq1 & -> & Hn1 & Hc1 & Hk1).
      exists st1, [next_id st]; splits; auto; try lia.
      intros i [<- | []]; lia.
    - exists st, []; splits; auto using quiet_refl; try frames.
      all: intros i []. }
  destruct H1 as (st1 & l1 & -> & Hq1 & Hn1 & Hl1 & Hc1 & Hk1).
  assert (H2 : exists st2 l2,
    (if c2 then
       let '(st0, i) :=
         alloc (new_Order (strategy order) (asset order) (quantity order)
                  (opposite (side order)) None (take_profit_price order)
                  (quote order)) st1 in
       (st0, [i])
     else (st1, [])) = (st2, l2)
    /\ quiet st1 st2
    /\ (forall i, In i l2 -> (next_id st <= i)%nat)
    /\ cash st2 = cash st1 /\ same_clock st1 st2).
  { destruct c2.
    - destruct (alloc _ st1) as [st2 i2] eqn:E2.
      apply alloc_spec in E2 as (Hq2 & -> & Hn2 & Hc2 & Hk2).
      exists st2, [next_id st1]; splits; auto.
      intros i [<- | []]; lia.
    - exists st1, []; splits; auto using quiet_refl; try frames.
      all: intros i []. }
  destruct H2 as (st2 & l2 & -> & Hq2 & Hl2 & Hc2 & Hk2).
  assert (Hq : quiet st st2) by (eapply quiet_trans; eassumption).
  simpl.
  destruct (order_class order =? "bracket")%string;
    [| split; [exact Hq | frames]].
  destruct l1 as [| s [| ? ?]]; try (split; [exact Hq | frames]).
  destruct l2 as [| l [| ? ?]]; try (split; [exact Hq | frames]).
  split; [| frames].
  apply quiet_update_fresh; [| apply Hl2; left; reflexivity].
  apply quiet_update_fresh; [| apply Hl1; left; reflexivity].
  exact Hq.
Qed.

Lemma dispatch_frame ev st :
  cash (dispatch ev st) = cash st /\ same_clock st (dispatch ev st).
Proof.
  rewrite dispatch_unfold; cbv zeta.
  repeat match goal with |- context [if ?c then _ else _] => destruct c end;
    frames.
Qed.

Lemma set_dependent_order_filled_ages o :
  ages o (set_dependent_order_filled true o).
Proof. unfold ages; simpl; tauto. Qed.

Lemma set_trade_cost_ages c o : ages o (set_trade_cost c o).
Proof. unfold ages; simpl; tauto. Qed.

#[local] Hint Resolve set_dependent_order_filled_ages set_trade_cost_ages
  : broker.

Lemma CANCELED_not_FILLED : CANCELED_ORDER <> FILLED_ORDER.
Proof. discriminate. Qed.

Lemma CASH_SETTLED_not_FILLED : CASH_SETTLED <> FILLED_ORDER.
Proof. discriminate. Qed.

Lemma quiet_cancel_order oid st : quiet st (cancel_order oid st).
Proof. apply quiet_dispatch; simpl. apply CANCELED_not_FILLED. Qed.

Lemma cancel_dependent_spec order st :
  quiet st (cancel_dependent order st)
  /\ cash (cancel_dependent order st) = cash st
  /\ same_clock st (cancel_dependent order st).
Proof.
  unfold cancel_dependent.
  destruct (dependent_order order) as [d |];
    [| split; [apply quiet_refl | frames]].
  split.
  - eapply quiet_trans; [| apply quiet_cancel_order].
    apply quiet_update_order, set_dependent_order_filled_ages.
  - unfold cancel_order.
    destruct (dispatch_frame (mkEvent CANCELED_ORDER d None None)
                (update_order d (set_dependent_order_filled true) st))
      as (Hc & Hk).
    frames.
Qed.

Lemma expand_children_spec oid order st :
  quiet st (expand_children oid order st)
  /\ cash (expand_children oid order st) = cash st
  /\ same_clock st (expand_children oid order st).
Proof.
  unfold expand_children.
  destruct (str_in (order_class order) ["bracket"; "oto"]);
    [| split; [apply quiet_refl | frames]].
  destruct (flatten_order_spec oid st) as (Hq & Hc & Hk).
  destruct (_flatten_order oid st) as [st1 flat]; simpl in *.
  split; [| frames].
  eapply quiet_trans; [exact Hq |].
  apply quiet_same_store; reflexivity.
Qed.

Lemma charge_trade_cost_spec s oid order price st :
  quiet st (charge_trade_cost s oid order price st)
  /\ cash (charge_trade_cost s oid order price st)
     = cash st - float (calculate_trade_cost order s price)
  /\ same_clock st (charge_trade_cost s oid order price st).
Proof.
  unfold charge_trade_cost. split; [| frames].
  eapply quiet_trans; [| apply quiet_update_order, set_trade_cost_ages].
  apply quiet_same_store; reflexivity.
Qed.

(** The state in which the fill of an order is published. *)
Lemma fill_order_unfold s oid order price st :
  fill_order s oid order price st
  = dispatch (mkEvent FILLED_ORDER oid (Some price) (Some (quantity order)))
      (charge_trade_cost s oid order price
         (expand_children oid order (cancel_dependent order st))).
Proof. reflexivity. Qed.

Lemma before_fill_spec s oid order price st :
  let st' := charge_trade_cost s oid order price
               (expand_children oid order (cancel_dependent order st)) in
  quiet st st'
  /\ cash st' = cash st - float (calculate_trade_cost order s price)
  /\ same_clock st st'.
Proof.
  intros st'; subst st'.
  destruct (cancel_dependent_spec order st) as (Hq1 & Hc1 & Hk1).
  destruct (expand_children_spec oid order (cancel_dependent order st))
    as (Hq2 & Hc2 & Hk2).
  destruct (charge_trade_cost_spec s oid order price
              (expand_children oid order (cancel_dependent order st)))
    as (Hq3 & Hc3 & Hk3).
  split; [eauto using quiet_trans |].
  split; [rewrite Hc3, Hc2, Hc1; reflexivity | frames].
Qed.

Lemma fill_order_frame s oid order price st :
  cash (fill_order s oid order price st)
  = cash st - float (calculate_trade_cost order s price)
  /\ same_clock st (fill_order s oid order price st)
  /\ stream (fill_order s oid order price st)
     = (stream (charge_trade_cost s oid order price
                 (expand_children oid order (cancel_dependent order st)))
        ++ [mkEvent FILLED_ORDER oid (Some price) (Some (quantity order))])%list.
Proof.
  rewrite fill_order_unfold, stream_dispatch.
  destruct (before_fill_spec s oid order price st) as (_ & Hc & Hk).
  match goal with |- context [dispatch ?ev ?st0] =>
    destruct (dispatch_frame ev st0) as (Hc' & Hk') end.
  split; [rewrite Hc', Hc; reflexivity |].
  split; [frames | reflexivity].
Qed.

(** ** Trade cost *)

Lemma fold_trading_fees o price fees acc :
  fold_left (add_trading_fee o price) fees acc
  == acc + spec_trade_cost o price fees.
Proof.
  revert acc; induction fees as [| fee rest IH]; intros acc; simpl.
  - ring.
  - rewrite IH. unfold add_trading_fee, spec_fee, Decimal.
    destruct (taker fee && str_in (type o) ["market"; "stop"]),
             (maker fee && str_in (type o) ["limit"; "stop_limit"]);
      cbn [orb]; ring.
Qed.

(** C6. The trade cost of a fill is the sum, over the fee list of the
    order's side, of the flat fee plus price times quantity times the
    percentage, for the taker fees of a market or stop order and the maker
    fees of a limit or stop_limit order; the fill leaves the strategy with
    its cash less the float of that cost. *)
Theorem trade_cost_rule (s : Strategy) (o : Order) (price : Q) :
  (side o = "buy" ->
   calculate_trade_cost o s price
   == spec_trade_cost o price (buy_trading_fees s)) /\
  (side o = "sell" ->
   calculate_trade_cost o s price
   == spec_trade_cost o price (sell_trading_fees s)) /\
  (forall oid st,
     cash (charge_trade_cost s oid o price st)
     = cash st - float (calculate_trade_cost o s price) /\
     cash (fill_order s oid o price st)
     = cash st - float (calculate_trade_cost o s price)).
Proof.
  unfold calculate_trade_cost, side_fees. splits.
  - intros ->; simpl. rewrite fold_trading_fees. ring.
  - intros ->; simpl. rewrite fold_trading_fees. ring.
  - intros oid st. split.
    + apply charge_trade_cost_spec.
    + apply fill_order_frame.
Qed.

Lemma trade_cost_rule_witness :
  let o := new_Order "s" (stock_Asset "SPY") 10 "buy" None (Some 100) None in
  let s := mkStrategy "s" [mkTradingFee 1 (1 # 100) true false;
                           mkTradingFee 2 (1 # 100) false true] [] 5 in
  side o = "buy" /\
  calculate_trade_cost o s 100
  == spec_trade_cost o 100 (buy_trading_fees s).
Proof.
  intros o s. split; [reflexivity |].
  apply (trade_cost_rule s o 100). reflexivity.
Defined.

(** C10. A trailing_stop order matches neither the taker types nor the
    maker types: its trade cost is zero whatever the fee lists, and its
    fill leaves the strategy's cash as it was. *)
Theorem trailing_stop_costs_nothing (s : Strategy) (o : Order) (price : Q) :
  type o = "trailing_stop" ->
  calculate_trade_cost o s price = 0 /\
  (forall oid st, cash (fill_order s oid o price st) == cash st).
Proof.
  intros Ht.
  assert (Hz : calculate_trade_cost o s price = 0).
  { unfold calculate_trade_cost.
    induction (side_fees o s) as [| fee rest IH]; simpl; [reflexivity |].
    unfold add_trading_fee at 2. rewrite Ht; simpl.
    rewrite !andb_false_r. exact IH. }
  split; [exact Hz |].
  intros oid st.
  destruct (fill_order_frame s oid o price st) as (-> & _).
  rewrite Hz. unfold float. ring.
Qed.

Lemma trailing_stop_costs_nothing_witness :
  let o := mkOrder "s" (stock_Asset "SPY") 10 "sell" "trailing_stop" ""
             None None None None None (Some (TrailPrice 2)) None "new" false
             (Some 98) None None false in
  let s := mkStrategy "s" [] [mkTradingFee 1 (1 # 100) true true] 5 in
  type o = "trailing_stop" /\ calculate_trade_cost o s 97 = 0.
Proof.
  intros o s. split; [reflexivity |].
  apply (trailing_stop_costs_nothing s o 97). reflexivity.
Defined.

(** ** Option cash settlement *)

Lemma same_clock_refl st : same_clock st st.
Proof. frames. Qed.

Lemma same_clock_trans st1 st2 st3 :
  same_clock st1 st2 -> same_clock st2 st3 -> same_clock st1 st3.
Proof. frames. Qed.

Lemma py_div_ok a b : ~ b == 0 -> py_div a b = Ok (a / b).
Proof.
  intros Hb. unfold py_div.
  destruct (Qeq_bool b 0) eqn:E; [| reflexivity].
  apply Qeq_bool_iff in E. contradiction.
Qed.

Lemma py_div_zero a b : b == 0 -> py_div a b = Raise ZeroDivisionError.
Proof.
  intros Hb. unfold py_div. apply Qeq_bool_iff in Hb. rewrite Hb. reflexivity.
Qed.

Lemma inject_Z_nonzero z : z <> 0%Z -> ~ inject_Z z == 0.
Proof. intros Hz H. apply Hz. unfold Qeq in H; simpl in H. lia. Qed.

Lemma adjust_profit_loss_long q pl :
  0 < q -> 0 <= adjust_profit_loss q pl /\ adjust_profit_loss q pl == Qmax pl 0.
Proof.
  intros Hq. unfold adjust_profit_loss.
  destruct (Q.max_spec pl 0) as [[Hlt ->] | [Hle ->]];
    destruct (Qlt_bool 0 q) eqn:E1, (Qlt_bool pl 0) eqn:E2,
             (Qlt_bool q 0) eqn:E3, (Qlt_bool 0 pl) eqn:E4;
    simpl; to_order; split; lra.
Qed.

Lemma adjust_profit_loss_short q pl :
  q < 0 -> adjust_profit_loss q pl <= 0 /\ adjust_profit_loss q pl == Qmin pl 0.
Proof.
  intros Hq. unfold adjust_profit_loss.
  destruct (Q.min_spec pl 0) as [[Hlt ->] | [Hle ->]];
    destruct (Qlt_bool 0 q) eqn:E1, (Qlt_bool pl 0) eqn:E2,
             (Qlt_bool q 0) eqn:E3, (Qlt_bool 0 pl) eqn:E4;
    simpl; to_order; split; lra.
Qed.

(** A position of quantity zero cannot be settled: the quotient raises,
    after the cash has been set and the offsetting order created. *)
Lemma cash_settle_zero_quantity ds s position st U :
  asset_type (pos_asset position) = "option" ->
  get_last_price ds (stock_Asset (symbol (pos_asset position))) = Some U ->
  pos_quantity position == 0 ->
  exists st',
    cash_settle_options_contract ds s position st
    = Raised ZeroDivisionError st' /\
    stream st' = stream st.
Proof.
  intros Ha HU Hq. unfold cash_settle_options_contract.
  rewrite Ha, HU. cbn [String.eqb Ascii.eqb Bool.eqb negb create_order alloc].
  rewrite (py_div_zero _ _ Hq). cbn [mbind result_bind].
  eexists. split; reflexivity.
Qed.

(** C7. Settling an option position with underlying price [U]: the profit
    or loss per contract is [U - strike] for a CALL and [strike - U] for a
    PUT, times the quantity and the multiplier; a long position settles at
    no less than zero and a short one at no more than zero; the result is
    added to the cash, and a CASH_SETTLED event is published with price
    [|pnl / quantity / multiplier|] and filled quantity [|quantity|] for a
    new order of [|quantity|] contracts that sells if the position is long
    and buys if it is short. *)
Theorem cash_settlement_rule (ds : DataSource) (s : Strategy)
    (position : Position) (st : State) (U : Q) :
  asset_type (pos_asset position) = "option" ->
  get_last_price ds (stock_Asset (symbol (pos_asset position))) = Some U ->
  ~ pos_quantity position == 0 ->
  multiplier (pos_asset position) <> 0%Z ->
  let q := pos_quantity position in
  let m := inject_Z (multiplier (pos_asset position)) in
  let K := strike (pos_asset position) in
  let raw := position_profit_loss position U in
  let pnl := adjust_profit_loss q raw in
  (right (pos_asset position) = "CALL" -> raw = (U - K) * q * m) /\
  (right (pos_asset position) = "PUT" -> raw = (K - U) * q * m) /\
  (0 < q -> 0 <= pnl /\ pnl == Qmax raw 0) /\
  (q < 0 -> pnl <= 0 /\ pnl == Qmin raw 0) /\
  exists st' side,
    cash_settle_options_contract ds s position st = Done st' /\
    cash st' = cash st + pnl /\
    stream st'
    = (stream st
       ++ [mkEvent CASH_SETTLED (next_id st) (Some (Qabs (pnl / q / m)))
             (Some (Qabs q))])%list /\
    orders st' !! next_id st
    = Some (new_Order (name s) (pos_asset position) (Qabs q) side
              None None None) /\
    (0 < q -> side = "sell") /\
    (q < 0 -> side = "buy").
Proof.
  intros Ha HU Hq Hm q m K raw pnl. splits.
  - intros Hr. subst raw. unfold position_profit_loss. rewrite Hr. reflexivity.
  - intros Hr. subst raw. unfold position_profit_loss. rewrite Hr. reflexivity.
  - apply adjust_profit_loss_long.
  - apply adjust_profit_loss_short.
  - unfold cash_settle_options_contract.
    rewrite Ha, HU. cbn [String.eqb Ascii.eqb Bool.eqb negb create_order alloc].
    fold q raw. fold pnl.
    rewrite (py_div_ok pnl q Hq). cbn [mbind result_bind].
    rewrite (py_div_ok (pnl / q) _ (inject_Z_nonzero _ Hm)). fold m.
    eexists. exists (if Qlt_bool 0 q then "sell" else "buy").
    split; [reflexivity |].
    rewrite stream_dispatch.
    match goal with |- context [dispatch ?ev ?st0] =>
      destruct (dispatch_frame ev st0) as (Hc & _); rewrite Hc end.
    splits; try reflexivity.
    + rewrite dispatch_unfold. simpl. apply lookup_insert_eq.
    + intros H. apply Qlt_bool_iff in H. rewrite H. reflexivity.
    + intros H. destruct (Qlt_bool 0 q) eqn:E; [| reflexivity].
      to_order. lra.
Qed.

Lemma cash_settlement_rule_witness :
  let call := mkAsset "SPY" "option" (Some 19000%Z) 100 "CALL" 100 in
  let position := mkPosition "s" call 1 [] in
  let ds := mkDataSource PANDAS "minute" 0 10 (fun _ _ => None)
              (fun _ => Some 107) in
  let s := mkStrategy "s" [] [] 5 in
  let st := mkState ∅ 0 [] [position] 1000 [] 0 [] in
  exists st',
    cash_settle_options_contract ds s position st = Done st' /\
    cash st' == 1700 /\
    exists order price,
      stream st' = [mkEvent CASH_SETTLED order (Some price) (Some 1)] /\
      price == 7.
Proof.
  intros call position ds s st.
  assert (Hq : ~ pos_quantity position == 0) by discriminate.
  assert (Hm : multiplier (pos_asset position) <> 0%Z) by discriminate.
  destruct (cash_settlement_rule ds s position st 107 eq_refl eq_refl Hq Hm)
    as (_ & _ & _ & _ & st' & side & Hrun & Hcash & Hstream & _).
  exists st'. split; [exact Hrun |].
  split; [rewrite Hcash; reflexivity |].
  exists (next_id st). eexists. rewrite Hstream.
  split; reflexivity.
Defined.

(** ** Calls that publish no fill *)

Lemma cash_settle_spec ds s position st :
  quiet st (final (cash_settle_options_contract ds s position st))
  /\ same_clock st (final (cash_settle_options_contract ds s position st)).
Proof.
  unfold cash_settle_options_contract.
  destruct (negb _); [split; [apply quiet_refl | frames] |].
  destruct (get_last_price ds _) as [U |];
    [| split; [apply quiet_refl | frames]].
  unfold create_order.
  destruct (alloc _ _) as [st1 order] eqn:E.
  apply alloc_spec in E as (Hq & _ & _ & _ & Hk).
  assert (Hq0 : quiet st st1).
  { eapply quiet_trans; [| exact Hq]. apply quiet_same_store; reflexivity. }
  destruct (_ ← py_div _ _; py_div _ _) as [per_contract | e]; simpl;
    [| split; [exact Hq0 | frames]].
  match goal with |- context [dispatch ?ev ?st0] =>
    destruct (dispatch_frame ev st0) as (_ & Hk');
    pose proof (quiet_dispatch ev st0 CASH_SETTLED_not_FILLED) as Hq' end.
  split; [eapply quiet_trans; eassumption | frames].
Qed.

Lemma expire_positions_spec ds s ps st :
  quiet st (final (expire_positions ds s ps st))
  /\ same_clock st (final (expire_positions ds s ps st)).
Proof.
  revert st; induction ps as [| position rest IH]; intros st; simpl;
    [split; [apply quiet_refl | frames] |].
  destruct (expiration (pos_asset position)) as [e |]; [| apply IH].
  destruct (e <=? date_of (datetime st))%Z; [| apply IH].
  destruct (get_time_to_close st) as [ttc |]; [| apply IH].
  destruct (_ && _); [apply IH |].
  destruct (cash_settle_spec ds s position st) as (Hq & Hk).
  destruct (cash_settle_options_contract ds s position st) as [st1 | e1 st1];
    simpl in *; [| split; assumption].
  destruct (IH st1) as (Hq1 & Hk1).
  split; [eapply quiet_trans; eassumption | frames].
Qed.

Lemma process_expired_spec ds s st :
  quiet st (final (process_expired_option_contracts ds s st))
  /\ same_clock st (final (process_expired_option_contracts ds s st)).
Proof.
  unfold process_expired_option_contracts.
  destruct (negb _); [split; [apply quiet_refl | frames] |].
  apply expire_positions_spec.
Qed.

(** The order a price determination leaves has only aged. *)
Lemma set_price_triggered_ages b o : ages o (set_price_triggered b o).
Proof. unfold ages; simpl; tauto. Qed.

Lemma update_trail_stop_price_ages p o : ages o (update_trail_stop_price p o).
Proof.
  unfold update_trail_stop_price.
  destruct (trail_amount o); [| apply ages_refl].
  destruct (_trail_stop_price o); [destruct (side o =? "buy")%string |];
    unfold ages; simpl; tauto.
Qed.

#[local] Hint Resolve set_price_triggered_ages update_trail_stop_price_ages
  : broker.

Lemma transaction_price_ages order bar price order' :
  transaction_price order bar = Ok (price, order') -> ages order order'.
Proof.
  unfold transaction_price.
  repeat match goal with
  | |- context [if ?c then _ else _] => destruct c
  | |- context [call_limit_order ?a ?b ?c ?d ?e] =>
      destruct (call_limit_order a b c d e) as [[?|]|]
  | |- context [call_stop_order ?a ?b ?c ?d ?e] =>
      destruct (call_stop_order a b c d e) as [[?|]|]
  | |- _ => progress (cbn [mbind mret result_bind result_ret])
  end;
  intros H; inversion H; subst; auto with broker.
Qed.

(** An order that is flagged or canceled is passed over. *)
Lemma evaluate_order_skips ds s oid st :
  flagged oid st = true -> evaluate_order ds s oid st = Done st.
Proof.
  unfold flagged, evaluate_order.
  destruct (orders st !! oid) as [order |]; [| reflexivity].
  intros ->. reflexivity.
Qed.

Lemma evaluate_order_turn ds s oid st :
  turn s oid st (evaluate_order ds s oid st).
Proof.
  unfold evaluate_order.
  destruct (orders st !! oid) as [order |] eqn:Ho; [| constructor].
  destruct (dependent_order_filled order) eqn:Hf; simpl; [constructor |].
  destruct (status order =? CANCELED_ORDER)%string; [constructor |].
  destruct (get_bar ds (datetime st) order) as [[bar |] | e];
    try constructor.
  destruct (transaction_price order bar) as [[price order'] | e] eqn:Hp;
    [| constructor].
  apply transaction_price_ages in Hp.
  destruct price; econstructor; eassumption.
Qed.

(** ** Pairs of mutually dependent orders *)

Lemma quiet_store_order st k o o' :
  orders st !! k = Some o -> ages o o' ->
  quiet st (update_order k (fun _ => o') st).
Proof.
  intros Hk Ha Hok; splits; auto.
  - intros j Hj. apply Hok. simpl in Hj.
    rewrite lookup_alter_is_Some in Hj. exact Hj.
  - intros j oj Hj. simpl. rewrite lookup_alter.
    destruct (decide (k = j)) as [<- | Hne]; rewrite Hj; simpl;
      eexists; split; try reflexivity; [| apply ages_refl].
    rewrite Hk in Hj. inversion Hj; subst. exact Ha.
Qed.

(** What a quiet step keeps of the observations on an order. *)
Lemma quiet_keeps st st' k :
  quiet st st' -> store_ok st ->
  (flagged k st = true -> flagged k st' = true) /\
  (status_of k st = Some CANCELED_ORDER ->
   status_of k st' = Some CANCELED_ORDER) /\
  (forall d, sibling_of k st = Some d -> sibling_of k st' = Some d) /\
  (is_Some (orders st !! k) -> status_of k st' = Some FILLED_ORDER ->
   status_of k st = Some FILLED_ORDER).
Proof.
  intros Hq Hok. destruct (Hq Hok) as (_ & Ho & _ & _).
  unfold flagged, status_of, sibling_of.
  destruct (orders st !! k) as [o |] eqn:Hk.
  - destruct (Ho k o Hk) as (o' & -> & Hd & Hf & Hc & Hs). simpl.
    splits; intros; try congruence; auto.
    + match goal with H : Some _ = Some _ |- _ => injection H as H end.
      rewrite (Hc H). reflexivity.
    + match goal with H : Some _ = Some _ |- _ =>
        injection H as H'; rewrite (Hs H'); reflexivity end.
  - simpl. splits; try discriminate. intros [? ?]; discriminate.
Qed.

Lemma pair_inv_sym a b st : pair_inv a b st -> pair_inv b a st.
Proof. unfold pair_inv, oco_pair. intuition. Qed.

Lemma oco_pair_stored a b st :
  oco_pair a b st -> is_Some (orders st !! a) /\ is_Some (orders st !! b).
Proof.
  unfold oco_pair, sibling_of. intros (_ & Ha & Hb).
  destruct (orders st !! a), (orders st !! b); try discriminate; eauto.
Qed.

Lemma pair_inv_quiet a b st st' :
  pair_inv a b st -> quiet st st' -> pair_inv a b st'.
Proof.
  intros (Hok & Hp & Hsa & Hsb & Hab & Hba) Hq.
  destruct (Hq Hok) as (Hok' & _ & Hfill & Hpub).
  destruct (oco_pair_stored a b st Hp) as (Hina & Hinb).
  destruct (quiet_keeps st st' a Hq Hok) as (Hfa & Hca & Hda & Hta).
  destruct (quiet_keeps st st' b Hq Hok) as (Hfb & Hcb & Hdb & Htb).
  destruct Hp as (Hne & Hla & Hlb).
  unfold pair_inv, oco_pair, status_follows_fill, fill_cancels in *.
  splits; auto; rewrite ?Hfill; intros H; auto.
  - destruct (Hab H) as (? & ? & ? & ?). auto.
  - destruct (Hba H) as (? & ? & ? & ?). auto.
Qed.

(** Publishing the fill of an order leaves the other objects alone. *)
Lemma dispatch_fill_other x price qty st k :
  k <> x ->
  let st' := dispatch (mkEvent FILLED_ORDER x price qty) st in
  orders st' !! k = orders st !! k /\
  (forall kind, published kind k st' = published kind k st).
Proof.
  intros Hk st'; subst st'. split.
  - rewrite dispatch_unfold; simpl. rewrite lookup_alter_ne; auto.
  - intros kind. rewrite published_dispatch; simpl.
    destruct (Nat.eqb_spec x k); [congruence |].
    rewrite andb_false_r, orb_false_r. reflexivity.
Qed.

Lemma dispatch_fill_self x price qty st :
  let st' := dispatch (mkEvent FILLED_ORDER x price qty) st in
  store_ok st -> store_ok st' /\
  published FILLED_ORDER x st' = true /\
  sibling_of x st' = sibling_of x st.
Proof.
  intros st' Hok; subst st'. splits.
  - intros j Hj. apply Hok. rewrite dispatch_unfold in Hj; simpl in Hj.
    rewrite lookup_alter_is_Some in Hj. exact Hj.
  - rewrite published_dispatch; simpl. rewrite Nat.eqb_refl.
    apply orb_true_r.
  - unfold sibling_of. rewrite dispatch_unfold; simpl.
    rewrite lookup_alter_eq. destruct (orders st !! x) as [o |]; simpl; auto.
    unfold transition. destruct (str_in _ _); reflexivity.
Qed.

Lemma pair_inv_fill_other a b x price qty st :
  pair_inv a b st -> x <> a -> x <> b ->
  pair_inv a b (dispatch (mkEvent FILLED_ORDER x price qty) st).
Proof.
  intros (Hok & Hp & Hsa & Hsb & Hab & Hba) Hxa Hxb.
  destruct (dispatch_fill_other x price qty st a) as (Hoa & Hpa); auto.
  destruct (dispatch_fill_other x price qty st b) as (Hob & Hpb); auto.
  destruct (dispatch_fill_self x price qty st Hok) as (Hok' & _ & _).
  unfold pair_inv, oco_pair, status_follows_fill, fill_cancels,
    sibling_of, status_of, flagged in *.
  rewrite !Hoa, !Hob, !Hpa, !Hpb. splits; auto; apply Hp.
Qed.

Lemma pair_inv_fill_self a b price qty st :
  pair_inv a b st ->
  flagged b st = true ->
  published CANCELED_ORDER b st = true ->
  status_of b st = Some CANCELED_ORDER ->
  published FILLED_ORDER b st = false ->
  pair_inv a b (dispatch (mkEvent FILLED_ORDER a price qty) st).
Proof.
  intros (Hok & (Hne & Hla & Hlb) & Hsa & Hsb & Hab & Hba) Hf Hc Hs Hn.
  destruct (dispatch_fill_other a price qty st b) as (Hob & Hpb); auto.
  destruct (dispatch_fill_self a price qty st Hok) as (Hok' & Hpa & Hda).
  unfold pair_inv, oco_pair, status_follows_fill, fill_cancels,
    sibling_of, status_of, flagged in *.
  rewrite !Hob, !Hpb, Hpa, Hda. splits; auto; congruence.
Qed.

(** The cancellation of the sibling, right after it is made. *)
Lemma cancel_dependent_marks order d st :
  dependent_order order = Some d ->
  is_Some (orders st !! d) ->
  status_of d st <> Some FILLED_ORDER ->
  flagged d (cancel_dependent order st) = true /\
  published CANCELED_ORDER d (cancel_dependent order st) = true /\
  status_of d (cancel_dependent order st) = Some CANCELED_ORDER.
Proof.
  intros Hd [o Ho] Hs. unfold cancel_dependent, cancel_order. rewrite Hd.
  splits.
  - unfold flagged. rewrite dispatch_unfold; simpl.
    rewrite !lookup_alter_eq, Ho; simpl.
    unfold transition. destruct (str_in _ _); reflexivity.
  - rewrite published_dispatch; simpl. rewrite Nat.eqb_refl.
    apply orb_true_r.
  - unfold status_of in *. rewrite dispatch_unfold; simpl.
    rewrite !lookup_alter_eq, Ho; simpl. rewrite Ho in Hs; simpl in Hs.
    unfold transition, str_in; simpl.
    destruct (String.eqb_spec (status o) FILLED_ORDER) as [Hf | Hf];
      [congruence |].
    destruct (String.eqb_spec (status o) CANCELED_ORDER) as [Hc | Hc];
      simpl; [rewrite Hc |]; reflexivity.
Qed.

(** When an order of a pair is about to publish its fill, its sibling is
    flagged and canceled and has not filled. *)
Lemma pair_fill_ready s a b order order' price st :
  pair_inv a b st ->
  orders st !! a = Some order -> ages order order' ->
  dependent_order_filled order = false ->
  let st' := charge_trade_cost s a order' price
               (expand_children a order'
                  (cancel_dependent order'
                     (update_order a (fun _ => order') st))) in
  pair_inv a b st' /\
  flagged b st' = true /\
  published CANCELED_ORDER b st' = true /\
  status_of b st' = Some CANCELED_ORDER /\
  published FILLED_ORDER b st' = false.
Proof.
  intros Hinv Ho Ha Hf.
  set (st1 := update_order a (fun _ => order') st).
  set (st2 := cancel_dependent order' st1).
  set (st3 := expand_children a order' st2).
  intros st'.
  assert (Hq1 : quiet st st1) by (eapply quiet_store_order; eassumption).
  assert (Hq2 : quiet st1 st2) by apply cancel_dependent_spec.
  assert (Hq3 : quiet st2 st3) by apply expand_children_spec.
  assert (Hq4 : quiet st3 st') by apply charge_trade_cost_spec.
  assert (Hi1 : pair_inv a b st1) by eauto using pair_inv_quiet.
  assert (Hi2 : pair_inv a b st2) by eauto using pair_inv_quiet.
  assert (Hi3 : pair_inv a b st3) by eauto using pair_inv_quiet.
  assert (Hi' : pair_inv a b st') by eauto using pair_inv_quiet.
  destruct Hinv as (Hok & (Hne & Hla & Hlb) & Hsa & Hsb & Hab & Hba).
  assert (Hnb : published FILLED_ORDER b st = false).
  { destruct (published FILLED_ORDER b st) eqn:E; [| reflexivity].
    destruct (Hba E) as (Hfa & _).
    unfold flagged in Hfa. rewrite Ho in Hfa. congruence. }
  assert (Hsib : dependent_order order' = Some b).
  { destruct Ha as (-> & _). unfold sibling_of in Hla.
    rewrite Ho in Hla. exact Hla. }
  assert (Hb1 : orders st1 !! b = orders st !! b).
  { subst st1; simpl. apply lookup_alter_ne. exact Hne. }
  assert (Hinb : is_Some (orders st1 !! b)).
  { rewrite Hb1. eapply oco_pair_stored. split; eauto. }
  assert (Hstb : status_of b st1 <> Some FILLED_ORDER).
  { unfold status_of. rewrite Hb1. intros H.
    apply Hsb in H. congruence. }
  destruct (cancel_dependent_marks order' b st1 Hsib Hinb Hstb)
    as (Hf2 & Hc2 & Hs2).
  fold st2 in Hf2, Hc2, Hs2.
  assert (Hq24 : quiet st2 st') by eauto using quiet_trans.
  destruct Hi2 as (Hok2 & _).
  destruct (quiet_keeps st2 st' b Hq24 Hok2) as (Hkf & Hkc & _ & _).
  destruct (Hq24 Hok2) as (_ & _ & _ & Hpub).
  assert (Hq04 : quiet st st') by eauto using quiet_trans.
  destruct (Hq04 Hok) as (_ & _ & Hfill & _).
  splits; auto. rewrite Hfill. exact Hnb.
Qed.

(** A turn of the loop keeps the invariant of every pair. *)
Lemma pair_inv_turn s a b x st out :
  pair_inv a b st -> turn s x st out -> pair_inv a b (final out).
Proof.
  intros Hinv Hturn.
  destruct Hturn as [| e | | order order' Ho Ha | order order' price Ho Ha Hf];
    simpl; auto.
  - eapply pair_inv_quiet; [exact Hinv | apply quiet_cancel_order].
  - eapply pair_inv_quiet; [exact Hinv |].
    eapply quiet_store_order; eassumption.
  - rewrite fill_order_unfold.
    destruct (decide (x = a)) as [-> | Hxa].
    { destruct (pair_fill_ready s a b order order' price st Hinv Ho Ha Hf)
        as (Hi & H1 & H2 & H3 & H4).
      apply pair_inv_fill_self; assumption. }
    destruct (decide (x = b)) as [-> | Hxb].
    { apply pair_inv_sym.
      destruct (pair_fill_ready s b a order order' price st
                  (pair_inv_sym _ _ _ Hinv) Ho Ha Hf)
        as (Hi & H1 & H2 & H3 & H4).
      apply pair_inv_fill_self; assumption. }
    apply pair_inv_fill_other; auto.
    eapply pair_inv_quiet; [exact Hinv |].
    eapply quiet_trans; [eapply quiet_store_order; eassumption |].
    apply before_fill_spec.
Qed.

Lemma pair_inv_evaluate_orders ds s a b pending st :
  pair_inv a b st -> pair_inv a b (final (evaluate_orders ds s pending st)).
Proof.
  revert st; induction pending as [| x rest IH]; intros st Hinv; simpl; auto.
  pose proof (pair_inv_turn s a b x st _ Hinv (evaluate_order_turn ds s x st))
    as Hstep.
  destruct (evaluate_order ds s x st) as [st1 | e st1]; simpl in *; auto.
Qed.

Lemma pair_inv_process_pending_orders ds s a b st :
  pair_inv a b st -> pair_inv a b (final (process_pending_orders ds s st)).
Proof.
  intros Hinv. unfold process_pending_orders.
  pose proof (pair_inv_quiet a b st _ Hinv
                (proj1 (process_expired_spec ds s st))) as H1.
  destruct (process_expired_option_contracts ds s st) as [st1 | e st1];
    simpl in *; auto.
  apply pair_inv_evaluate_orders. exact H1.
Qed.

Lemma pair_inv_call s a b c st :
  pair_inv a b st -> pair_inv a b (final (call s c st)).
Proof.
  intros Hinv. destruct c as [ds | ds t | ds t | d | oid]; simpl.
  - apply pair_inv_process_pending_orders. exact Hinv.
  - unfold _await_market_to_open. destruct (_ && _); [exact Hinv |].
    pose proof (pair_inv_process_pending_orders ds s a b st Hinv) as H1.
    destruct (process_pending_orders ds s st) as [st1 | e st1]; simpl in *;
      [| exact H1].
    eapply pair_inv_quiet; [exact H1 | apply quiet_same_store; reflexivity].
  - unfold _await_market_to_close. destruct (_ && _); [exact Hinv |].
    pose proof (pair_inv_process_pending_orders ds s a b st Hinv) as H1.
    destruct (process_pending_orders ds s st) as [st1 | e st1]; simpl in *;
      [| exact H1].
    eapply pair_inv_quiet; [exact H1 | apply quiet_same_store; reflexivity].
  - eapply pair_inv_quiet; [exact Hinv | apply quiet_same_store; reflexivity].
  - eapply pair_inv_quiet; [exact Hinv | apply quiet_cancel_order].
Qed.

Lemma pair_inv_run s a b calls st :
  pair_inv a b st -> pair_inv a b (final (run s calls st)).
Proof.
  revert st; induction calls as [| c rest IH]; intros st Hinv; simpl; auto.
  pose proof (pair_inv_call s a b c st Hinv) as H1.
  destruct (call s c st) as [st1 | e st1]; simpl in *; auto.
Qed.

(** C5. For a pair of mutually dependent orders of which none has filled,
    and after any run of the broker: the two orders have not both filled,
    by the stream and by their status; if one has filled, its sibling has
    its [dependent_order_filled] flag set, its cancellation published and
    the status [canceled]; and a flagged order is passed over by every
    evaluation.  The run is arbitrary, so this holds at the end of the very
    call in which the fill is published. *)
Theorem oco_at_most_one_fill (s : Strategy) (calls : list Call)
    (a b : nat) (st : State) :
  store_ok st -> oco_pair a b st ->
  published FILLED_ORDER a st = false ->
  published FILLED_ORDER b st = false ->
  status_of a st <> Some FILLED_ORDER ->
  status_of b st <> Some FILLED_ORDER ->
  let st' := final (run s calls st) in
  ~ (published FILLED_ORDER a st' = true /\
     published FILLED_ORDER b st' = true) /\
  ~ (status_of a st' = Some FILLED_ORDER /\
     status_of b st' = Some FILLED_ORDER) /\
  (published FILLED_ORDER a st' = true ->
   flagged b st' = true /\ published CANCELED_ORDER b st' = true /\
   status_of b st' = Some CANCELED_ORDER) /\
  (published FILLED_ORDER b st' = true ->
   flagged a st' = true /\ published CANCELED_ORDER a st' = true /\
   status_of a st' = Some CANCELED_ORDER) /\
  (forall ds oid, flagged oid st' = true ->
     evaluate_order ds s oid st' = Done st').
Proof.
  intros Hok Hp Hna Hnb Hsa Hsb st'.
  assert (Hinv : pair_inv a b st).
  { unfold pair_inv, status_follows_fill, fill_cancels.
    splits; auto; congruence. }
  apply (pair_inv_run s a b calls) in Hinv. fold st' in Hinv.
  destruct Hinv as (_ & _ & Hfa & Hfb & Hab & Hba).
  splits.
  - intros (Ha & Hb). destruct (Hab Ha) as (_ & _ & _ & Hn). congruence.
  - intros (Ha & Hb). apply Hfa in Ha.
    destruct (Hab Ha) as (_ & _ & Hc & _). rewrite Hc in Hb. discriminate.
  - intros H. destruct (Hab H) as (? & ? & ? & _). auto.
  - intros H. destruct (Hba H) as (? & ? & ? & _). auto.
  - intros ds oid. apply evaluate_order_skips.
Qed.

Lemma store_ok_check_sound st : store_ok_check st = true -> store_ok st.
Proof.
  unfold store_ok_check. rewrite forallb_forall.
  intros H k [o Hk].
  apply elem_of_map_to_list, list_elem_of_In, H in Hk.
  apply Nat.ltb_lt in Hk. exact Hk.
Qed.

Lemma oco_at_most_one_fill_witness :
  let spy := stock_Asset "SPY" in
  let parent :=
    mkOrder "s" spy 10 "sell" "market" "oco" None None (Some 95) None
      (Some 105) None None "unprocessed" false None None None false in
  let st0 := mkState {[ 0%nat := parent ]} 1 [] [] 1000 [] 0 [] in
  let st := set_new_orders (snd (_flatten_order 0 st0))
              (fst (_flatten_order 0 st0)) in
  let bar := mkRow 0 100 104 94 100 1 in
  let ds := mkDataSource YAHOO "minute" 0 1000
              (fun _ _ => Some (mkBars [bar])) (fun _ => None) in
  let s := mkStrategy "s" [] [] 5 in
  let st' := final (run s [ProcessPendingOrders ds] st) in
  oco_pair 1 2 st /\
  published FILLED_ORDER 1 st' = true /\
  published FILLED_ORDER 2 st' = false /\
  status_of 2 st' = Some CANCELED_ORDER.
Proof.
  intros spy parent st0 st bar ds s st'.
  assert (Hok : store_ok st) by (apply store_ok_check_sound; reflexivity).
  assert (Hp : oco_pair 1 2 st).
  { split; [discriminate | split; reflexivity]. }
  assert (Hs1 : status_of 1 st <> Some FILLED_ORDER) by discriminate.
  assert (Hs2 : status_of 2 st <> Some FILLED_ORDER) by discriminate.
  destruct (oco_at_most_one_fill s [ProcessPendingOrders ds] 1 2 st
              Hok Hp eq_refl eq_refl Hs1 Hs2)
    as (Hnot & _ & Hcancel & _).
  assert (Hf : published FILLED_ORDER 1 st' = true) by reflexivity.
  split; [exact Hp |]. split; [exact Hf |].
  split; [| apply Hcancel, Hf].
  destruct (published FILLED_ORDER 2 st') eqn:E; [| reflexivity].
  exfalso. apply Hnot. split; [exact Hf | exact E].
Defined.

(** ** Evaluation of one order *)

Section Turn.

Variable ds : DataSource.
Variable s : Strategy.

(** A turn that gets a bar and a price determination. *)
Lemma evaluate_order_priced oid order bar price order' st :
  orders st !! oid = Some order ->
  dependent_order_filled order = false ->
  status order <> CANCELED_ORDER ->
  get_bar ds (datetime st) order = Ok (Some bar) ->
  transaction_price order bar = Ok (price, order') ->
  evaluate_order ds s oid st =
  match price with
  | Some p =>
      Done (fill_order s oid order' p (update_order oid (fun _ => order') st))
  | None => Done (update_order oid (fun _ => order') st)
  end.
Proof.
  intros Ho Hf Hs Hb Hp. unfold evaluate_order.
  rewrite Ho, Hf. apply String.eqb_neq in Hs. rewrite Hs. simpl.
  rewrite Hb, Hp. destruct price; reflexivity.
Qed.

(** The last event of a fill is the [FILLED_ORDER] of the order. *)
Lemma fill_order_publishes oid order price st :
  last (stream (fill_order s oid order price st))
  = Some (mkEvent FILLED_ORDER oid (Some price) (Some (quantity order))).
Proof.
  destruct (fill_order_frame s oid order price st) as (_ & _ & ->).
  apply last_snoc.
Qed.

(** An order that stays pending: nothing is published and the object is
    as the price determination left it. *)
Lemma update_order_pending oid order order' st :
  orders st !! oid = Some order ->
  stream (update_order oid (fun _ => order') st) = stream st /\
  orders (update_order oid (fun _ => order') st) !! oid = Some order'.
Proof.
  intros Ho. split; [reflexivity |]. simpl.
  rewrite lookup_alter_eq, Ho. reflexivity.
Qed.

(** C3. A pending stop_limit order on a bar.  Not yet triggered: the stop
    rule is evaluated; when it gives no trigger price the order stays
    pending and untriggered; when it gives one, the limit rule is evaluated
    on the same bar with the trigger price in place of the open, and the
    order fills at the price it gives, or stays pending with
    [price_triggered] set when it gives none.  Already triggered: the limit
    rule on the bar's open, high and low decides. *)
Theorem stop_limit_rule (oid : nat) (order : Order) (bar : Row) (st : State)
    (S P : Q) :
  orders st !! oid = Some order ->
  dependent_order_filled order = false ->
  status order <> CANCELED_ORDER ->
  get_bar ds (datetime st) order = Ok (Some bar) ->
  type order = "stop_limit" ->
  stop_price order = Some S ->
  limit_price order = Some P ->
  let O := open bar in
  let H := high bar in
  let L := low bar in
  let triggered := set_price_triggered true order in
  exists st',
    evaluate_order ds s oid st = Done st' /\
    (price_triggered order = false ->
     (stop_order S (side order) O H L = None ->
      stream st' = stream st /\ orders st' !! oid = Some order) /\
     (forall trigger, stop_order S (side order) O H L = Some trigger ->
        (forall price, limit_order P (side order) trigger H L = Some price ->
           st' = fill_order s oid triggered price
                   (update_order oid (fun _ => triggered) st) /\
           last (stream st')
           = Some (mkEvent FILLED_ORDER oid (Some price)
                     (Some (quantity order)))) /\
        (limit_order P (side order) trigger H L = None ->
           stream st' = stream st /\ orders st' !! oid = Some triggered /\
           price_triggered triggered = true /\
           status triggered = status order))) /\
    (price_triggered order = true ->
     (forall price, limit_order P (side order) O H L = Some price ->
        st' = fill_order s oid order price
                (update_order oid (fun _ => order) st) /\
        last (stream st')
        = Some (mkEvent FILLED_ORDER oid (Some price)
                  (Some (quantity order)))) /\
     (limit_order P (side order) O H L = None ->
      stream st' = stream st /\ orders st' !! oid = Some order)).
Proof.
  intros Ho Hf Hs Hb Ht HS HP O H L triggered.
  assert (Hprice : exists price order',
    transaction_price order bar = Ok (price, order') /\
    (price_triggered order = false ->
     match stop_order S (side order) O H L with
     | None => price = None /\ order' = order
     | Some trigger =>
         price = limit_order P (side order) trigger H L /\
         order' = triggered
     end) /\
    (price_triggered order = true ->
     price = limit_order P (side order) O H L /\ order' = order)).
  { unfold transaction_price. rewrite Ht, HS, HP; simpl.
    fold O H L.
    destruct (price_triggered order); simpl.
    - eexists _, _. split; [reflexivity |]. split; [discriminate | auto].
    - destruct (stop_order S (side order) O H L) as [trigger |]; simpl;
        eexists _, _; (split; [reflexivity |]); split; auto; discriminate. }
  destruct Hprice as (price & order' & Hp & Hun & Htr).
  rewrite (evaluate_order_priced oid order bar price order' st
             Ho Hf Hs Hb Hp).
  destruct (update_order_pending oid order order' st Ho) as (Hst & Hlk).
  destruct price as [p |]; eexists; (split; [reflexivity |]).
  - split.
    + intros Hu. specialize (Hun Hu).
      destruct (stop_order S (side order) O H L) as [trigger |].
      * destruct Hun as (Hpr & ->). split; [discriminate |].
        intros t Et; injection Et as <-. split.
        -- intros price Hl. rewrite Hl in Hpr. injection Hpr as ->.
           split; [reflexivity |].
           exact (fill_order_publishes oid triggered _ _).
        -- intros Hl. rewrite Hl in Hpr. discriminate.
      * destruct Hun as (Hpr & _). discriminate.
    + intros Hu. destruct (Htr Hu) as (Hpr & ->). split.
      * intros price Hl. rewrite Hl in Hpr. injection Hpr as ->.
        split; [reflexivity | apply fill_order_publishes].
      * intros Hl. rewrite Hl in Hpr. discriminate.
  - split.
    + intros Hu. specialize (Hun Hu).
      destruct (stop_order S (side order) O H L) as [trigger |].
      * destruct Hun as (Hpr & ->). split; [discriminate |].
        intros t Et; injection Et as <-. split.
        -- intros price Hl. rewrite Hl in Hpr. discriminate.
        -- intros _. splits; auto.
      * destruct Hun as (_ & ->). split; [auto | discriminate].
    + intros Hu. destruct (Htr Hu) as (Hpr & ->). split.
      * intros price Hl. rewrite Hl in Hpr. discriminate.
      * auto.
Qed.

(** C4. A pending trailing_stop order on a bar.  With a stop price set, the
    stop rule is evaluated against that price, and only then is the trail
    updated, from the bar's high for a sell order and from its low for a
    buy order: the order fills at the price the rule gives, or stays
    pending with the updated trail.  With no stop price yet, nothing fills
    and the order leaves the turn with its stop price taken from this
    bar. *)
Theorem trailing_stop_rule (oid : nat) (order : Order) (bar : Row)
    (st : State) :
  orders st !! oid = Some order ->
  dependent_order_filled order = false ->
  status order <> CANCELED_ORDER ->
  get_bar ds (datetime st) order = Ok (Some bar) ->
  type order = "trailing_stop" ->
  side order = "sell" \/ side order = "buy" ->
  let reference := if (side order =? "sell")%string then high bar else low bar in
  let updated := update_trail_stop_price reference order in
  (forall T, _trail_stop_price order = Some T -> ~ T == 0 ->
     transaction_price order bar
     = Ok (stop_order T (side order) (open bar) (high bar) (low bar), updated)
     /\
     evaluate_order ds s oid st =
     match stop_order T (side order) (open bar) (high bar) (low bar) with
     | Some price =>
         Done (fill_order s oid updated price
                 (update_order oid (fun _ => updated) st))
     | None => Done (update_order oid (fun _ => updated) st)
     end) /\
  (_trail_stop_price order = None ->
     transaction_price order bar = Ok (None, updated) /\
     exists st',
       evaluate_order ds s oid st = Done st' /\
       stream st' = stream st /\
       orders st' !! oid = Some updated /\
       status updated = status order /\
       forall t, trail_amount order = Some t ->
         _trail_stop_price updated
         = Some (trail_candidate t (side order) reference)).
Proof.
  intros Ho Hf Hs Hb Ht Hside reference updated.
  assert (Hupd : (if (side order =? "sell")%string
                  then update_trail_stop_price (high bar) order
                  else if (side order =? "buy")%string
                       then update_trail_stop_price (low bar) order
                       else order) = updated).
  { subst updated reference.
    destruct Hside as [-> | ->]; reflexivity. }
  split.
  - intros T HT Hnz.
    assert (Hp : transaction_price order bar
                 = Ok (stop_order T (side order) (open bar) (high bar)
                         (low bar), updated)).
    { unfold transaction_price. rewrite Ht, HT; simpl.
      destruct (Qeq_bool T 0) eqn:E;
        [apply Qeq_bool_iff in E; contradiction |]; simpl.
      rewrite Hupd. reflexivity. }
    split; [exact Hp |].
    apply (evaluate_order_priced oid order bar _ updated st);
      assumption.
  - intros HT.
    assert (Hp : transaction_price order bar = Ok (None, updated)).
    { unfold transaction_price. rewrite Ht, HT; simpl.
      rewrite Hupd. reflexivity. }
    split; [exact Hp |].
    rewrite (evaluate_order_priced oid order bar None updated st
               Ho Hf Hs Hb Hp).
    destruct (update_order_pending oid order updated st Ho) as (Hst & Hlk).
    eexists; splits; try reflexivity; try assumption.
    + subst updated. unfold update_trail_stop_price. rewrite HT.
      destruct (trail_amount order); reflexivity.
    + intros t Htr. subst updated. unfold update_trail_stop_price.
      rewrite Htr, HT. reflexivity.
Qed.

(** ** Missing data *)

(** C9, as the code behaves.  When the strategy returns no frame for the
    asset of a pending order, the turn raises [AttributeError] at [ohlc.df]
    on every source, before the test [ohlc is None] of the PANDAS path is
    reached; with an empty frame it raises [IndexError].  The state is as
    before the turn: nothing is canceled. *)
Theorem missing_bar_raises (oid : nat) (order : Order) (st : State) :
  orders st !! oid = Some order ->
  dependent_order_filled order = false ->
  status order <> CANCELED_ORDER ->
  (get_historical_prices ds (asset order) (quote order) = None ->
   evaluate_order ds s oid st = Raised AttributeError st) /\
  (get_historical_prices ds (asset order) (quote order) = Some (mkBars []) ->
   evaluate_order ds s oid st = Raised IndexError st).
Proof.
  intros Ho Hf Hs. apply String.eqb_neq in Hs.
  unfold evaluate_order, get_bar. rewrite Ho, Hf, Hs; simpl.
  split; intros ->; destruct (SOURCE ds); reflexivity.
Qed.

End Turn.

Lemma stop_limit_rule_witness :
  let order :=
    new_Order "s" (stock_Asset "SPY") 10 "sell" (Some 99) (Some 102) None in
  let bar := mkRow 0 100 101 98 100 1 in
  let ds := mkDataSource YAHOO "minute" 0 1000
              (fun _ _ => Some (mkBars [bar])) (fun _ => None) in
  let s := mkStrategy "s" [] [] 5 in
  let st := mkState {[ 0%nat := order ]} 1 [0%nat] [] 1000 [] 0 [] in
  stop_order 99 "sell" 100 101 98 = Some 99 /\
  limit_order 102 "sell" 99 101 98 = None /\
  exists st',
    evaluate_order ds s 0 st = Done st' /\
    stream st' = [] /\
    orders st' !! 0%nat = Some (set_price_triggered true order).
Proof.
  intros order bar ds s st.
  assert (Hs : status order <> CANCELED_ORDER) by discriminate.
  destruct (stop_limit_rule ds s 0 order bar st 99 102
              eq_refl eq_refl Hs eq_refl eq_refl eq_refl eq_refl)
    as (st' & Hrun & Hun & _).
  destruct (Hun eq_refl) as (_ & Htrig).
  destruct (Htrig 99 eq_refl) as (_ & Hwait).
  destruct (Hwait eq_refl) as (Hstream & Hlookup & _).
  split; [reflexivity |]. split; [reflexivity |].
  exists st'. split; [exact Hrun |]. split; assumption.
Defined.

Lemma trailing_stop_rule_witness :
  let order :=
    mkOrder "s" (stock_Asset "SPY") 10 "sell" "trailing_stop" ""
      None None None None None (Some (TrailPrice 2)) None "new" false
      None None None false in
  let bar := mkRow 0 100 101 98 100 1 in
  let ds := mkDataSource YAHOO "minute" 0 1000
              (fun _ _ => Some (mkBars [bar])) (fun _ => None) in
  let s := mkStrategy "s" [] [] 5 in
  let st := mkState {[ 0%nat := order ]} 1 [0%nat] [] 1000 [] 0 [] in
  exists st',
    evaluate_order ds s 0 st = Done st' /\
    stream st' = [] /\
    (_trail_stop_price <$> orders st' !! 0%nat) = Some (Some (101 - 2)).
Proof.
  intros order bar ds s st.
  assert (Hs : status order <> CANCELED_ORDER) by discriminate.
  destruct (trailing_stop_rule ds s 0 order bar st
              eq_refl eq_refl Hs eq_refl eq_refl (or_introl eq_refl))
    as (_ & Hfirst).
  destruct (Hfirst eq_refl) as (_ & st' & Hrun & Hstream & Hlookup & _ & Htrail).
  exists st'. split; [exact Hrun |]. split; [exact Hstream |].
  rewrite Hlookup; cbn [fmap option_fmap option_map].
  rewrite (Htrail (TrailPrice 2) eq_refl). reflexivity.
Defined.

Lemma missing_bar_raises_witness :
  let order := new_Order "s" (stock_Asset "SPY") 10 "buy" None None None in
  let ds := mkDataSource PANDAS "minute" 0 1000 (fun _ _ => None)
              (fun _ => None) in
  let s := mkStrategy "s" [] [] 5 in
  let st := mkState {[ 0%nat := order ]} 1 [0%nat] [] 1000 [] 0 [] in
  process_pending_orders ds s st = Raised AttributeError st /\
  evaluate_order ds s 0 st = Raised AttributeError st /\
  published CANCELED_ORDER 0 (final (process_pending_orders ds s st)) = false.
Proof.
  intros order ds s st.
  assert (Hs : status order <> CANCELED_ORDER) by discriminate.
  split; [reflexivity |]. split; [| reflexivity].
  apply (missing_bar_raises ds s 0 order st eq_refl eq_refl Hs). reflexivity.
Defined.

(** ** The clock *)

Lemma turn_same_clock s oid st out :
  turn s oid st out -> same_clock st (final out).
Proof.
  intros [| e | | order order' Ho Ha | order order' price Ho Ha Hf].
  - apply same_clock_refl.
  - apply same_clock_refl.
  - apply dispatch_frame.
  - frames.
  - apply (fill_order_frame s oid order' price
             (update_order oid (fun _ => order') st)).
Qed.

Lemma evaluate_orders_same_clock ds s pending st :
  same_clock st (final (evaluate_orders ds s pending st)).
Proof.
  revert st; induction pending as [| x rest IH]; intros st; simpl;
    [apply same_clock_refl |].
  pose proof (turn_same_clock s x st _ (evaluate_order_turn ds s x st)) as H.
  destruct (evaluate_order ds s x st) as [st1 | e st1]; simpl in *; auto.
  eapply same_clock_trans; [exact H | apply IH].
Qed.

(** Evaluating the pending orders does not touch the clock. *)
Lemma process_pending_orders_same_clock ds s st :
  same_clock st (final (process_pending_orders ds s st)).
Proof.
  unfold process_pending_orders.
  destruct (process_expired_spec ds s st) as (_ & H).
  destruct (process_expired_option_contracts ds s st) as [st1 | e st1];
    simpl in *; auto.
  eapply same_clock_trans; [exact H | apply evaluate_orders_same_clock].
Qed.

Lemma get_time_to_open_same_clock ds st st' :
  same_clock st st' -> get_time_to_open ds st' = get_time_to_open ds st.
Proof. intros (Hd & Ht). unfold get_time_to_open. rewrite Hd, Ht. reflexivity. Qed.

Lemma get_time_to_close_same_clock st st' :
  same_clock st st' -> get_time_to_close st' = get_time_to_close st.
Proof. intros (Hd & Ht). unfold get_time_to_close. rewrite Hd, Ht. reflexivity. Qed.

(** C8, as stated, fails: a negative number of seconds moves the clock
    back, and [_await_market_to_open] passes one when the market is
    already open and an offset is given. *)
Lemma clock_moves_backwards :
  let st := mkState ∅ 0 [] [] 1000 [] 1000 [(900, 2000)%Z] in
  let ds := mkDataSource YAHOO "minute" 0 5000 (fun _ _ => None)
              (fun _ => None) in
  let s := mkStrategy "s" [] [] 5 in
  (datetime (_update_datetime (Number (-60)) st) < datetime st)%Z /\
  get_time_to_open ds st = 0%Z /\
  exists st',
    _await_market_to_open ds s (Some 1%Z) st = Done st' /\
    (datetime st' < datetime st)%Z.
Proof.
  intros st ds s. split; [reflexivity |]. split; [reflexivity |].
  eexists. split; reflexivity.
Qed.

(** C8, amended.  [_update_datetime] sets the clock to the old time plus
    the duration or the seconds, or to the timestamp it is given; the new
    time is not before the old one exactly when the duration or the
    seconds are not negative, or the timestamp is not earlier.  The await
    functions do not move the clock back when sixty times the offset does
    not exceed the time left to the open or to the close: the seconds they
    pass are that time left (zero when the session has not opened) less
    sixty times the offset. *)
Theorem update_datetime_monotone :
  (forall d st,
     datetime (_update_datetime (Timedelta d) st) = (datetime st + d)%Z /\
     ((datetime st <= datetime (_update_datetime (Timedelta d) st))%Z
      <-> (0 <= d)%Z)) /\
  (forall n st,
     datetime (_update_datetime (Number n) st) = (datetime st + n)%Z /\
     ((datetime st <= datetime (_update_datetime (Number n) st))%Z
      <-> (0 <= n)%Z)) /\
  (forall t st,
     datetime (_update_datetime (Datetime t) st) = t /\
     ((datetime st <= datetime (_update_datetime (Datetime t) st))%Z
      <-> (datetime st <= t)%Z)) /\
  (forall ds s timedelta st st',
     _await_market_to_open ds s timedelta st = Done st' ->
     (60 * offset_minutes timedelta <= get_time_to_open ds st)%Z ->
     (datetime st <= datetime st')%Z) /\
  (forall ds s timedelta st st',
     _await_market_to_close ds s timedelta st = Done st' ->
     (60 * offset_minutes timedelta
      <= default 0 (get_time_to_close st))%Z ->
     (datetime st <= datetime st')%Z) /\
  (forall ds s timedelta st st',
     _await_market_to_open ds s timedelta st = Done st' ->
     (Source_eqb (SOURCE ds) PANDAS && (_timestep ds =? "day")%string)%bool
     = false ->
     datetime st'
     = (datetime st + (get_time_to_open ds st
                       - 60 * offset_minutes timedelta))%Z) /\
  (forall ds s timedelta st st',
     _await_market_to_close ds s timedelta st = Done st' ->
     (Source_eqb (SOURCE ds) PANDAS && (_timestep ds =? "day")%string)%bool
     = false ->
     datetime st'
     = (datetime st + (default 0 (get_time_to_close st)
                       - 60 * offset_minutes timedelta))%Z).
Proof.
  splits.
  - intros d st; simpl. split; [reflexivity | lia].
  - intros n st; simpl. split; [reflexivity | lia].
  - intros t st; simpl. split; [reflexivity | lia].
  - intros ds s timedelta st st'. unfold _await_market_to_open.
    destruct (_ && _); [intros [= <-] _; lia |].
    pose proof (process_pending_orders_same_clock ds s st) as Hk.
    destruct (process_pending_orders ds s st) as [st1 | e st1];
      [| discriminate].
    simpl in Hk. intros [= <-]; simpl.
    rewrite (get_time_to_open_same_clock ds st st1 Hk).
    destruct Hk as (-> & _).
    destruct timedelta as [t |]; simpl; [destruct (t =? 0)%Z eqn:E |]; lia.
  - intros ds s timedelta st st'. unfold _await_market_to_close.
    destruct (_ && _); [intros [= <-] _; lia |].
    pose proof (process_pending_orders_same_clock ds s st) as Hk.
    destruct (process_pending_orders ds s st) as [st1 | e st1];
      [| discriminate].
    simpl in Hk. intros [= <-]; simpl.
    rewrite (get_time_to_close_same_clock st st1 Hk).
    destruct Hk as (-> & _).
    destruct (get_time_to_close st); destruct timedelta; simpl; lia.
  - intros ds s timedelta st st' Hrun Hsrc. revert Hrun.
    unfold _await_market_to_open. rewrite Hsrc.
    pose proof (process_pending_orders_same_clock ds s st) as Hk.
    destruct (process_pending_orders ds s st) as [st1 | e st1];
      [| discriminate].
    simpl in Hk. intros [= <-]; simpl.
    rewrite (get_time_to_open_same_clock ds st st1 Hk).
    destruct Hk as (-> & _).
    destruct timedelta as [t |]; simpl; [destruct (t =? 0)%Z eqn:E |]; lia.
  - intros ds s timedelta st st' Hrun Hsrc. revert Hrun.
    unfold _await_market_to_close. rewrite Hsrc.
    pose proof (process_pending_orders_same_clock ds s st) as Hk.
    destruct (process_pending_orders ds s st) as [st1 | e st1];
      [| discriminate].
    simpl in Hk. intros [= <-]; simpl.
    rewrite (get_time_to_close_same_clock st st1 Hk).
    destruct Hk as (-> & _).
    destruct (get_time_to_close st); destruct timedelta; simpl; lia.
Qed.

Lemma update_datetime_monotone_witness :
  let st := mkState ∅ 0 [] [] 1000 [] 1000 [(4000, 9000)%Z] in
  let ds := mkDataSource YAHOO "minute" 0 20000 (fun _ _ => None)
              (fun _ => None) in
  let s := mkStrategy "s" [] [] 5 in
  (60 * offset_minutes (Some 10) <= get_time_to_open ds st)%Z /\
  (datetime st
   <= datetime (final (_await_market_to_open ds s (Some 10%Z) st)))%Z.
Proof.
  intros st ds s.
  assert (H : (60 * offset_minutes (Some 10) <= get_time_to_open ds st)%Z)
    by (intros E; discriminate E).
  split; [exact H |].
  destruct update_datetime_monotone as (_ & _ & _ & Hopen & _).
  exact (Hopen ds s (Some 10%Z) st _ eq_refl H).
Defined.

(** * Further properties of the code *)

(** ** Bounds on fill prices *)

Lemma limit_order_bound P side O H L p :
  limit_order P side O H L = Some p ->
  (side = "buy" -> p <= P) /\ (side = "sell" -> P <= p).
Proof.
  unfold limit_order. intros Hp.
  split; intros ->; simpl in Hp; revert Hp; fill_cases;
    intros [= <-]; lra.
Qed.

Lemma limit_order_in_range P side O H L p :
  L <= O <= H -> limit_order P side O H L = Some p -> L <= p <= H.
Proof.
  unfold limit_order. intros Hb.
  destruct (side =? "sell")%string, (side =? "buy")%string; simpl;
    fill_cases; intros [= <-]; lra.
Qed.

Lemma stop_order_in_range S side O H L p :
  L <= O <= H -> stop_order S side O H L = Some p -> L <= p <= H.
Proof.
  unfold stop_order. intros Hb.
  destruct (side =? "sell")%string, (side =? "buy")%string; simpl;
    fill_cases; intros [= <-]; lra.
Qed.

(** X1. A limit or stop_limit order never fills at a price worse than its
    limit: the transaction price of a buy order is at most the limit
    price, that of a sell order at least the limit price; for a stop_limit
    order also on the bar that triggers it. *)
Theorem limit_price_protects (order order' : Order) (bar : Row) (P p : Q) :
  type order = "limit" \/ type order = "stop_limit" ->
  limit_price order = Some P ->
  transaction_price order bar = Ok (Some p, order') ->
  (side order = "buy" -> p <= P) /\ (side order = "sell" -> P <= p).
Proof.
  intros Ht HP. unfold transaction_price.
  destruct Ht as [-> | ->]; simpl; rewrite HP; simpl.
  - intros [= Hp _]. eapply limit_order_bound, Hp.
  - destruct (price_triggered order); simpl.
    + intros [= Hp _]. eapply limit_order_bound, Hp.
    + destruct (call_stop_order _ _ _ _ _) as [[trigger |] | e]; simpl;
        try discriminate.
      intros [= Hp _]. eapply limit_order_bound, Hp.
Qed.

Lemma limit_price_protects_witness :
  let order :=
    new_Order "s" (stock_Asset "SPY") 10 "sell" (Some 99) (Some 98) None in
  let bar := mkRow 0 100 101 97 100 1 in
  transaction_price order bar
  = Ok (Some 99, set_price_triggered true order) /\ 98 <= 99.
Proof.
  intros order bar.
  assert (H : transaction_price order bar
              = Ok (Some 99, set_price_triggered true order)) by reflexivity.
  split; [exact H |].
  apply (limit_price_protects order _ bar 98 99 (or_intror eq_refl)
           eq_refl H).
  reflexivity.
Defined.

(** X2. On a bar whose open lies between its low and its high, whatever
    the type of the order, a transaction price lies between the low and the
    high of the bar. *)
Theorem fill_price_within_bar (order order' : Order) (bar : Row) (p : Q) :
  low bar <= open bar <= high bar ->
  transaction_price order bar = Ok (Some p, order') ->
  low bar <= p <= high bar.
Proof.
  intros Hb. unfold transaction_price.
  destruct (type order =? "market")%string.
  { intros [= <- _]. exact Hb. }
  destruct (type order =? "limit")%string.
  { destruct (limit_price order) as [P |]; simpl; [| discriminate].
    intros [= Hp _]. eapply limit_order_in_range; eassumption. }
  destruct (type order =? "stop")%string.
  { destruct (stop_price order) as [Sp |]; simpl; [| discriminate].
    intros [= Hp _]. eapply stop_order_in_range; eassumption. }
  destruct (type order =? "stop_limit")%string.
  { destruct (price_triggered order); simpl.
    - destruct (limit_price order) as [P |]; simpl; [| discriminate].
      intros [= Hp _]. eapply limit_order_in_range; eassumption.
    - destruct (stop_price order) as [Sp |]; simpl; [| discriminate].
      destruct (stop_order Sp _ _ _ _) as [trigger |] eqn:Et; simpl;
        [| discriminate].
      destruct (limit_price order) as [P |]; simpl; [| discriminate].
      intros [= Hp _].
      eapply limit_order_in_range; [| exact Hp].
      eapply stop_order_in_range; eassumption. }
  destruct (type order =? "trailing_stop")%string; [| discriminate].
  destruct (_trail_stop_price order) as [T |]; simpl; [| discriminate].
  destruct (negb (Qeq_bool T 0)); simpl; [| discriminate].
  intros [= Hp _]. eapply stop_order_in_range; eassumption.
Qed.

Lemma fill_price_within_bar_witness :
  let order :=
    new_Order "s" (stock_Asset "SPY") 10 "buy" None (Some 95) None in
  let bar := mkRow 0 94 96 93 95 1 in
  transaction_price order bar = Ok (Some 94, order) /\ 93 <= 94 <= 96.
Proof.
  intros order bar.
  assert (Hb : low bar <= open bar <= high bar)
    by (split; intros E; discriminate E).
  assert (H : transaction_price order bar = Ok (Some 94, order))
    by reflexivity.
  split; [exact H |].
  exact (fill_price_within_bar order order bar 94 Hb H).
Defined.

(** X3. A stop order never fills at a price better than its stop: a sell
    stop fills at or below the stop price, a buy stop at or above it. *)
Theorem stop_price_bounds (S O H L p : Q) (side : string) :
  stop_order S side O H L = Some p ->
  (side = "sell" -> p <= S) /\ (side = "buy" -> S <= p).
Proof.
  unfold stop_order. intros Hp.
  split; intros ->; simpl in Hp; revert Hp; fill_cases;
    intros [= <-]; lra.
Qed.

Lemma stop_price_bounds_witness :
  stop_order 99 "sell" 97 98 96 = Some 97 /\ 97 <= 99.
Proof.
  assert (H : stop_order 99 "sell" 97 98 96 = Some 97) by reflexivity.
  split; [exact H |].
  apply (stop_price_bounds 99 97 98 96 97 "sell" H). reflexivity.
Defined.

(** X4. The two fill rules mirror each other: a buy limit and a sell stop
    at the same price fill alike on every bar, and so do a sell limit and
    a buy stop; for a side that is neither buy nor sell both rules fill at
    the price exactly when it lies in the range of the bar, whatever the
    open. *)
Theorem limit_and_stop_mirror (P O H L : Q) :
  limit_order P "buy" O H L = stop_order P "sell" O H L /\
  limit_order P "sell" O H L = stop_order P "buy" O H L /\
  (forall side, side <> "buy" -> side <> "sell" ->
     limit_order P side O H L = stop_order P side O H L /\
     (L <= P <= H -> limit_order P side O H L = Some P) /\
     (~ L <= P <= H -> limit_order P side O H L = None)).
Proof.
  unfold limit_order, stop_order; simpl. splits.
  - fill_cases.
  - fill_cases.
  - intros side Hb Hs.
    apply String.eqb_neq in Hb, Hs. rewrite Hb, Hs; simpl.
    splits; [reflexivity | |]; intros; fill_cases; exfalso; intuition lra.
Qed.

Lemma limit_and_stop_mirror_witness :
  "buy_to_cover" <> "buy" /\ "buy_to_cover" <> "sell" /\
  limit_order 95 "buy_to_cover" 90 96 93 = Some 95.
Proof.
  assert (Hb : "buy_to_cover" <> "buy") by discriminate.
  assert (Hs : "buy_to_cover" <> "sell") by discriminate.
  assert (Hr : 93 <= 95 <= 96) by (split; intros E; discriminate E).
  splits; [exact Hb | exact Hs |].
  destruct (limit_and_stop_mirror 95 90 96 93) as (_ & _ & Hside).
  destruct (Hside "buy_to_cover" Hb Hs) as (_ & Hin & _).
  exact (Hin Hr).
Defined.

(** ** Trade cost *)

Lemma spec_trade_cost_nonneg o price fees :
  Forall fee_nonneg fees -> 0 <= price -> 0 <= quantity o ->
  0 <= spec_trade_cost o price fees.
Proof.
  intros Hf Hp Hq. induction Hf as [| fee rest [Hflat Hpct] _ IH]; simpl.
  - apply Qle_refl.
  - assert (0 <= spec_fee o price fee).
    { unfold spec_fee. destruct (_ || _); [| apply Qle_refl].
      assert (0 <= price * quantity o * percent_fee fee)
        by (repeat apply Qmult_le_0_compat; assumption).
      lra. }
    lra.
Qed.

(** X5. With fees that are not negative, and a price and a quantity that
    are not negative, the trade cost is not negative: the cash the fill
    block sets is never more than the cash the strategy had. *)
Theorem trade_cost_nonnegative (s : Strategy) (o : Order) (price : Q) :
  Forall fee_nonneg (buy_trading_fees s) ->
  Forall fee_nonneg (sell_trading_fees s) ->
  0 <= price -> 0 <= quantity o ->
  0 <= calculate_trade_cost o s price /\
  (forall oid st, cash (charge_trade_cost s oid o price st) <= cash st).
Proof.
  intros Hb Hs Hp Hq.
  assert (Hc : 0 <= calculate_trade_cost o s price).
  { unfold calculate_trade_cost. rewrite fold_trading_fees.
    assert (0 <= spec_trade_cost o price (side_fees o s)); [| lra].
    apply spec_trade_cost_nonneg; auto.
    unfold side_fees.
    destruct (side o =? "buy")%string; [exact Hb |].
    destruct (side o =? "sell")%string; [exact Hs | constructor]. }
  split; [exact Hc |].
  intros oid st.
  destruct (charge_trade_cost_spec s oid o price st) as (_ & -> & _).
  unfold float. lra.
Qed.

Lemma trade_cost_nonnegative_witness :
  let o := new_Order "s" (stock_Asset "SPY") 10 "buy" None None None in
  let s := mkStrategy "s" [mkTradingFee 1 (1 # 100) false true] [] 5 in
  let st := mkState {[ 0%nat := o ]} 1 [0%nat] [] 1000 [] 0 [] in
  cash (charge_trade_cost s 0 o 100 st) <= 1000.
Proof.
  intros o s st.
  assert (Hb : Forall fee_nonneg (buy_trading_fees s)).
  { repeat constructor; simpl; intros E; discriminate E. }
  assert (Hs : Forall fee_nonneg (sell_trading_fees s)) by constructor.
  assert (Hp : 0 <= 100) by (intros E; discriminate E).
  assert (Hq : 0 <= quantity o) by (intros E; discriminate E).
  exact (proj2 (trade_cost_nonnegative s o 100 Hb Hs Hp Hq) 0%nat st).
Defined.

(** ** Derived orders *)

(** X6. Flattening an OCO order makes two new objects and returns them
    alone: a stop order at the stop-loss price and a limit order at the
    take-profit price, with the strategy, asset, quantity, side and quote
    of the parent, each the [dependent_order] of the other; every object
    that was in the store is left as it was. *)
Theorem flatten_oco_pair (oid : nat) (order : Order) (st : State) :
  store_ok st ->
  orders st !! oid = Some order ->
  order_class order = "oco" ->
  let n := next_id st in
  let st' := fst (_flatten_order oid st) in
  snd (_flatten_order oid st) = [n; S n] /\
  orders st !! n = None /\ orders st !! S n = None /\
  orders st' !! n
  = Some (set_dependent_order (Some (S n))
            (new_Order (strategy order) (asset order) (quantity order)
               (side order) (stop_loss_price order) None (quote order))) /\
  orders st' !! S n
  = Some (set_dependent_order (Some n)
            (new_Order (strategy order) (asset order) (quantity order)
               (side order) None (take_profit_price order) (quote order))) /\
  oco_pair n (S n) st' /\
  (forall k, (k < n)%nat -> orders st' !! k = orders st !! k).
Proof.
  intros Hok Ho Hc n st'.
  assert (Hfresh : forall k, (n <= k)%nat -> orders st !! k = None).
  { intros k Hk. destruct (orders st !! k) eqn:E; [| reflexivity].
    assert (k < next_id st)%nat by (apply Hok; rewrite E; eauto).
    subst n; lia. }
  subst st'. unfold _flatten_order. rewrite Ho, Hc. simpl. fold n.
  assert (Hn : n <> S n) by lia.
  assert (H1 : forall x y : Order,
            alter (set_dependent_order (Some n)) (S n)
              (alter (set_dependent_order (Some (S n))) n
                 (<[S n := y]> (<[n := x]> (orders st)))) !! n
            = Some (set_dependent_order (Some (S n)) x)).
  { intros x y. rewrite lookup_alter_ne by lia.
    rewrite lookup_alter_eq, lookup_insert_ne by lia.
    rewrite lookup_insert_eq. reflexivity. }
  assert (H2 : forall x y : Order,
            alter (set_dependent_order (Some n)) (S n)
              (alter (set_dependent_order (Some (S n))) n
                 (<[S n := y]> (<[n := x]> (orders st)))) !! S n
            = Some (set_dependent_order (Some n) y)).
  { intros x y. rewrite lookup_alter_eq, lookup_alter_ne by lia.
    rewrite lookup_insert_eq. reflexivity. }
  split; [reflexivity |].
  split; [apply Hfresh; lia |]. split; [apply Hfresh; lia |].
  split; [apply H1 |]. split; [apply H2 |].
  split.
  - unfold oco_pair, sibling_of; simpl. rewrite H1, H2. auto.
  - intros k Hk. rewrite !lookup_alter_ne, !lookup_insert_ne by lia.
    reflexivity.
Qed.

Lemma flatten_oco_pair_witness :
  let parent :=
    mkOrder "s" (stock_Asset "SPY") 10 "sell" "market" "oco" None None
      (Some 95) None (Some 105) None None "unprocessed" false None None None
      false in
  let st := mkState {[ 0%nat := parent ]} 1 [] [] 1000 [] 0 [] in
  snd (_flatten_order 0 st) = [1; 2]%nat /\
  oco_pair 1 2 (fst (_flatten_order 0 st)).
Proof.
  intros parent st.
  assert (Hok : store_ok st) by (apply store_ok_check_sound; reflexivity).
  destruct (flatten_oco_pair 0 parent st Hok eq_refl eq_refl)
    as (Hids & _ & _ & _ & _ & Hpair & _).
  split; assumption.
Defined.

(** What flattening a bracket order makes. *)
Lemma flatten_bracket_facts oid order st :
  store_ok st ->
  orders st !! oid = Some order ->
  order_class order = "bracket" ->
  let n := next_id st in
  let st' := fst (_flatten_order oid st) in
  snd (_flatten_order oid st) = [n; S n] /\
  orders st' !! n
  = Some (set_dependent_order (Some (S n))
            (new_Order (strategy order) (asset order) (quantity order)
               (opposite (side order)) (stop_loss_price order)
               (stop_loss_limit_price order) (quote order))) /\
  orders st' !! S n
  = Some (set_dependent_order (Some n)
            (new_Order (strategy order) (asset order) (quantity order)
               (opposite (side order)) None (take_profit_price order)
               (quote order))) /\
  (forall k, (k < n)%nat -> orders st' !! k = orders st !! k) /\
  _new_orders st' = _new_orders st /\
  (oid < n)%nat.
Proof.
  intros Hok Ho Hc n st'.
  assert (Hlt : (oid < n)%nat) by (apply Hok; rewrite Ho; eauto).
  subst st'. unfold _flatten_order. rewrite Ho, Hc. simpl. fold n.
  split; [reflexivity |].
  split.
  { rewrite lookup_alter_ne by lia.
    rewrite lookup_alter_eq, lookup_insert_ne by lia.
    rewrite lookup_insert_eq. reflexivity. }
  split.
  { rewrite lookup_alter_eq, lookup_alter_ne by lia.
    rewrite lookup_insert_eq. reflexivity. }
  split; [| split; [reflexivity | exact Hlt]].
  intros k Hk. rewrite !lookup_alter_ne, !lookup_insert_ne by lia.
  reflexivity.
Qed.

(** X7. When a bracket order without a sibling fills, its two children are
    made at that moment and appended to the orders the broker tracks,
    before the fill is published: in the state in which [FILLED_ORDER] is
    dispatched they are a stop-loss and a take-profit order on the opposite
    side, each the [dependent_order] of the other, both pending for the
    next pass. *)
Theorem bracket_fill_tracks_children (s : Strategy) (oid : nat)
    (order : Order) (price : Q) (st : State) :
  store_ok st ->
  orders st !! oid = Some order ->
  order_class order = "bracket" ->
  dependent_order order = None ->
  let n := next_id st in
  exists st0,
    fill_order s oid order price st
    = dispatch (mkEvent FILLED_ORDER oid (Some price)
                  (Some (quantity order))) st0 /\
    _new_orders st0 = (_new_orders st ++ [n; S n])%list /\
    oco_pair n (S n) st0 /\
    is_pending st0 n = true /\ is_pending st0 (S n) = true /\
    (exists stop_loss take_profit,
       orders st0 !! n = Some stop_loss /\
       orders st0 !! S n = Some take_profit /\
       side stop_loss = opposite (side order) /\
       side take_profit = opposite (side order) /\
       stop_price stop_loss = stop_loss_price order /\
       limit_price stop_loss = stop_loss_limit_price order /\
       limit_price take_profit = take_profit_price order /\
       quantity stop_loss = quantity order /\
       quantity take_profit = quantity order).
Proof.
  intros Hok Ho Hc Hd n.
  destruct (flatten_bracket_facts oid order st Hok Ho Hc)
    as (Hids & H1 & H2 & _ & Hnew & Hlt).
  fold n in Hids, H1, H2, Hlt.
  eexists. split; [apply fill_order_unfold |].
  set (st0 := charge_trade_cost s oid order price
                (expand_children oid order (cancel_dependent order st))).
  assert (Hother : forall k, k <> oid ->
            orders st0 !! k = orders (fst (_flatten_order oid st)) !! k).
  { intros k Hk. subst st0.
    unfold charge_trade_cost, expand_children, cancel_dependent.
    rewrite Hd, Hc; simpl.
    destruct (_flatten_order oid st) as [stf flat]; simpl.
    rewrite lookup_alter_ne by congruence. reflexivity. }
  assert (Htracked : _new_orders st0 = (_new_orders st ++ [n; S n])%list).
  { subst st0.
    unfold charge_trade_cost, expand_children, cancel_dependent.
    rewrite Hd, Hc; simpl.
    destruct (_flatten_order oid st) as [stf flat]; simpl in *.
    rewrite Hnew, Hids. reflexivity. }
  rewrite <- (Hother n) in H1 by lia.
  rewrite <- (Hother (S n)) in H2 by lia.
  split; [exact Htracked |].
  split.
  { unfold oco_pair, sibling_of. rewrite H1, H2; simpl.
    split; [lia | auto]. }
  unfold is_pending. rewrite H1, H2.
  split; [destruct (stop_loss_price order), (stop_loss_limit_price order);
          reflexivity |].
  split; [destruct (take_profit_price order); reflexivity |].
  eexists _, _. split; [reflexivity |]. split; [reflexivity |].
  simpl. splits; reflexivity.
Qed.

Lemma bracket_fill_tracks_children_witness :
  let parent :=
    mkOrder "s" (stock_Asset "SPY") 10 "buy" "market" "bracket" None None
      (Some 95) None (Some 105) None None "new" false None None None
      false in
  let s := mkStrategy "s" [] [] 5 in
  let st := mkState {[ 0%nat := parent ]} 1 [0%nat] [] 1000 [] 0 [] in
  exists st0,
    fill_order s 0 parent 100 st
    = dispatch (mkEvent FILLED_ORDER 0 (Some 100) (Some 10)) st0 /\
    _new_orders st0 = [0; 1; 2]%nat /\
    oco_pair 1 2 st0.
Proof.
  intros parent s st.
  assert (Hok : store_ok st) by (apply store_ok_check_sound; reflexivity).
  destruct (bracket_fill_tracks_children s 0 parent 100 st Hok
              eq_refl eq_refl eq_refl) as (st0 & Hfill & Hnew & Hpair & _).
  exists st0. split; [exact Hfill |]. split; [exact Hnew | exact Hpair].
Defined.

(** X8. The children of an OTO order are not linked: flattening makes a
    stop-loss order when the stop-loss price is set (and not zero) and a
    take-profit order when the take-profit price is, on the opposite side
    and for the quantity of the parent, and none of them has a
    [dependent_order]. *)
Theorem flatten_oto_children (oid : nat) (order : Order) (st : State) :
  store_ok st ->
  orders st !! oid = Some order ->
  order_class order = "oto" ->
  let st' := fst (_flatten_order oid st) in
  let children := snd (_flatten_order oid st) in
  length children
  = ((if truthy (stop_loss_price order) then 1 else 0)
     + (if truthy (take_profit_price order) then 1 else 0))%nat /\
  (forall k, In k children ->
     (next_id st <= k)%nat /\
     exists child,
       orders st' !! k = Some child /\
       dependent_order child = None /\
       side child = opposite (side order) /\
       quantity child = quantity order) /\
  (forall k, (k < next_id st)%nat -> orders st' !! k = orders st !! k).
Proof.
  intros Hok Ho Hc st' children. subst st' children.
  unfold _flatten_order. rewrite Ho, Hc. simpl.
  destruct (truthy (stop_loss_price order)),
           (truthy (take_profit_price order)); simpl.
  - split; [reflexivity |]. split.
    + intros k [<- | [<- | []]]; (split; [lia |]).
      * rewrite lookup_insert_ne by lia. rewrite lookup_insert_eq.
        eexists; split; [reflexivity |]. simpl. auto.
      * rewrite lookup_insert_eq.
        eexists; split; [reflexivity |]. simpl. auto.
    + intros k Hk. rewrite !lookup_insert_ne by lia. reflexivity.
  - split; [reflexivity |]. split.
    + intros k [<- | []]; (split; [lia |]).
      rewrite lookup_insert_eq.
      eexists; split; [reflexivity |]. simpl. auto.
    + intros k Hk. rewrite !lookup_insert_ne by lia. reflexivity.
  - split; [reflexivity |]. split.
    + intros k [<- | []]; (split; [lia |]).
      rewrite lookup_insert_eq.
      eexists; split; [reflexivity |]. simpl. auto.
    + intros k Hk. rewrite !lookup_insert_ne by lia. reflexivity.
  - split; [reflexivity |]. split; [intros k [] | reflexivity].
Qed.

Lemma flatten_oto_children_witness :
  let parent :=
    mkOrder "s" (stock_Asset "SPY") 10 "buy" "market" "oto" None None
      (Some 95) None (Some 105) None None "new" false None None None
      false in
  let st := mkState {[ 0%nat := parent ]} 1 [0%nat] [] 1000 [] 0 [] in
  length (snd (_flatten_order 0 st)) = 2%nat /\
  sibling_of 1 (fst (_flatten_order 0 st)) = None.
Proof.
  intros parent st.
  assert (Hok : store_ok st) by (apply store_ok_check_sound; reflexivity).
  destruct (flatten_oto_children 0 parent st Hok eq_refl eq_refl)
    as (Hlen & Hchildren & _).
  split; [exact Hlen |].
  destruct (Hchildren 1%nat (or_introl eq_refl)) as (_ & child & Hl & Hd & _).
  unfold sibling_of. rewrite Hl. exact Hd.
Defined.

(** X9. Flattening only makes new objects: the cash, the stream, the
    clock, the positions and the tracked orders are as before, at most two
    objects are added, every object of a well-formed store is left as it
    was, and the orders returned are the order itself or new objects.  An
    order of an unknown class gives no order at all. *)
Theorem flatten_order_only_creates (oid : nat) (st : State) :
  let st' := fst (_flatten_order oid st) in
  cash st' = cash st /\ stream st' = stream st /\
  datetime st' = datetime st /\ positions st' = positions st /\
  _new_orders st' = _new_orders st /\
  (next_id st <= next_id st' <= next_id st + 2)%nat /\
  (forall k, (k < next_id st)%nat -> orders st' !! k = orders st !! k) /\
  (forall k, In k (snd (_flatten_order oid st)) ->
     k = oid \/ (next_id st <= k < next_id st')%nat) /\
  (forall order, orders st !! oid = Some order ->
     str_in (order_class order) [""; "oco"; "bracket"; "oto"] = false ->
     _flatten_order oid st = (st, [])).
Proof.
  intros st'; subst st'. unfold _flatten_order, str_in; simpl.
  destruct (orders st !! oid) as [order |];
    [destruct (order_class order =? "")%string eqn:E0,
              (order_class order =? "oco")%string eqn:E1,
              (order_class order =? "bracket")%string eqn:E2,
              (order_class order =? "oto")%string eqn:E3,
              (truthy (stop_price order)),
              (truthy (stop_loss_price order)),
              (truthy (take_profit_price order)) |]; simpl.
  all: splits; try reflexivity; try lia.
  all: try (intros k Hk;
            rewrite ?lookup_alter_ne, ?lookup_insert_ne by lia;
            reflexivity).
  all: try (intros k Hk; simpl in Hk; intuition lia).
  all: try (intros o [= <-]; rewrite ?E0, ?E1, ?E2, ?E3; discriminate).
  all: try (intros o _ _; reflexivity).
  all: try discriminate.
Qed.

Lemma flatten_order_only_creates_witness :
  let order :=
    mkOrder "s" (stock_Asset "SPY") 10 "buy" "market" "multileg" None None
      None None None None None "new" false None None None false in
  let st := mkState {[ 0%nat := order ]} 1 [0%nat] [] 1000 [] 0 [] in
  _flatten_order 0 st = (st, []).
Proof.
  intros order st.
  destruct (flatten_order_only_creates 0 st)
    as (_ & _ & _ & _ & _ & _ & _ & _ & Hunknown).
  exact (Hunknown order eq_refl eq_refl).
Defined.

(** ** Evaluation of the pending orders, continued *)

Section Pass.

Variable ds : DataSource.
Variable s : Strategy.

(** X10. A pending market order with a bar at hand always fills, at the
    open of the bar and for its whole quantity, whatever the bar: the turn
    returns and ends with the dispatch of [FILLED_ORDER] at that price; and
    when the order has no sibling to cancel first, the cash in the state
    in which the event is dispatched is the cash before less the trade
    cost at the open. *)
Theorem market_order_fills_at_open (oid : nat) (order : Order) (bar : Row)
    (st : State) :
  orders st !! oid = Some order ->
  dependent_order_filled order = false ->
  status order <> CANCELED_ORDER ->
  get_bar ds (datetime st) order = Ok (Some bar) ->
  type order = "market" ->
  exists st0,
    evaluate_order ds s oid st
    = Done (dispatch (mkEvent FILLED_ORDER oid (Some (open bar))
                        (Some (quantity order))) st0) /\
    (dependent_order order = None ->
     cash st0 = cash st - float (calculate_trade_cost order s (open bar))).
Proof.
  intros Ho Hf Hs Hb Ht.
  assert (Hp : transaction_price order bar = Ok (Some (open bar), order)).
  { unfold transaction_price. rewrite Ht. reflexivity. }
  rewrite (evaluate_order_priced ds s oid order bar _ order st
             Ho Hf Hs Hb Hp).
  rewrite fill_order_unfold.
  eexists. split; [reflexivity |].
  intros _.
  apply (before_fill_spec s oid order (open bar)
           (update_order oid (fun _ => order) st)).
Qed.

(** X11. An order of a type the broker does not know makes its turn raise
    [ValueError]: the pass stops there with the state as it was, and the
    pending orders after it are not evaluated. *)
Theorem unknown_type_aborts_pass (oid : nat) (order : Order) (bar : Row)
    (rest : list nat) (st : State) :
  orders st !! oid = Some order ->
  dependent_order_filled order = false ->
  status order <> CANCELED_ORDER ->
  get_bar ds (datetime st) order = Ok (Some bar) ->
  str_in (type order) order_types = false ->
  evaluate_orders ds s (oid :: rest) st = Raised ValueError st.
Proof.
  intros Ho Hf Hs Hb Ht. apply String.eqb_neq in Hs.
  unfold str_in, order_types in Ht; simpl in Ht.
  repeat (apply orb_false_iff in Ht; destruct Ht as (? & Ht)).
  simpl. unfold evaluate_order. rewrite Ho, Hf, Hs, Hb; simpl.
  unfold transaction_price.
  repeat match goal with H : (_ =? _)%string = false |- _ =>
    rewrite H; clear H end.
  reflexivity.
Qed.

End Pass.

Lemma unknown_type_aborts_pass_witness :
  let odd :=
    mkOrder "s" (stock_Asset "SPY") 10 "buy" "market_on_close" "" None None
      None None None None None "new" false None None None false in
  let good := new_Order "s" (stock_Asset "SPY") 10 "buy" None None None in
  let bar := mkRow 0 100 101 98 100 1 in
  let ds := mkDataSource YAHOO "minute" 0 1000
              (fun _ _ => Some (mkBars [bar])) (fun _ => None) in
  let s := mkStrategy "s" [] [] 5 in
  let st := mkState {[ 0%nat := odd; 1%nat := good ]} 2 [0; 1]%nat [] 1000
              [] 0 [] in
  evaluate_orders ds s [0; 1]%nat st = Raised ValueError st /\
  stream (final (process_pending_orders ds s st)) = [].
Proof.
  intros odd good bar ds s st.
  assert (Hs : status odd <> CANCELED_ORDER) by discriminate.
  split; [| reflexivity].
  exact (unknown_type_aborts_pass ds s 0 odd bar [1%nat] st
           eq_refl eq_refl Hs eq_refl eq_refl).
Defined.

Lemma market_order_fills_at_open_witness :
  let order := new_Order "s" (stock_Asset "SPY") 10 "buy" None None None in
  let bar := mkRow 0 100 101 99 100 1 in
  let ds := mkDataSource YAHOO "minute" 0 1000
              (fun _ _ => Some (mkBars [bar])) (fun _ => None) in
  let s := mkStrategy "s" [mkTradingFee 1 0 false true] [] 5 in
  let st := mkState {[ 0%nat := order ]} 1 [0%nat] [] 1000 [] 0 [] in
  exists st0,
    evaluate_order ds s 0 st
    = Done (dispatch (mkEvent FILLED_ORDER 0 (Some 100) (Some 10)) st0) /\
    cash st0 == 999.
Proof.
  intros order bar ds s st.
  assert (Hs : status order <> CANCELED_ORDER) by discriminate.
  destruct (market_order_fills_at_open ds s 0 order bar st
              eq_refl eq_refl Hs eq_refl eq_refl)
    as (st0 & Hrun & Hcash).
  exists st0. split; [exact Hrun |].
  rewrite (Hcash eq_refl). reflexivity.
Defined.

(** ** Sessions and the clock *)

(** The first session that passes a test, when those before it fail. *)
Lemma filter_first {A} (P : A -> bool) (before : list A) (d : A)
    (after : list A) :
  Forall (fun c => P c = false) before -> P d = true ->
  List.filter P (before ++ d :: after) = d :: List.filter P after.
Proof.
  intros Hb Hd. induction Hb as [| c before Hc _ IH]; simpl.
  - rewrite Hd. reflexivity.
  - rewrite Hc. exact IH.
Qed.

Lemma filter_head_true {A} (P : A -> bool) (l : list A) d rest :
  List.filter P l = d :: rest -> P d = true.
Proof.
  intros H. assert (Hin : List.In d (List.filter P l))
    by (rewrite H; left; reflexivity).
  apply filter_In in Hin. apply Hin.
Qed.

(** X13. The time to the open is never negative, and neither is the time
    to the close when there is one. *)
Theorem time_to_session_nonnegative (ds : DataSource) (st : State) :
  (0 <= get_time_to_open ds st)%Z /\
  (forall r, get_time_to_close st = Some r -> (0 <= r)%Z).
Proof.
  split.
  - unfold get_time_to_open.
    destruct (List.filter _ _) as [| d rest]; [lia |].
    destruct (fst d <? datetime st)%Z;
      match goal with |- context [(?a <=? ?b)%Z] =>
        destruct (Z.leb_spec a b) end; lia.
  - intros r. unfold get_time_to_close.
    destruct (List.filter _ _) as [| d rest] eqn:E; [intros [= <-]; lia |].
    apply filter_head_true in E. apply Z.leb_le in E.
    destruct (datetime st <? fst d)%Z; [discriminate |].
    intros [= <-]. lia.
Qed.

Lemma time_to_session_nonnegative_witness :
  let st := mkState ∅ 0 [] [] 0 [] 1000 [(900, 2000)%Z] in
  get_time_to_close st = Some 1000%Z /\ (0 <= 1000)%Z.
Proof.
  intros st.
  assert (H : get_time_to_close st = Some 1000%Z) by reflexivity.
  split; [exact H |].
  exact (proj2 (time_to_session_nonnegative
                  (mkDataSource YAHOO "minute" 0 5000 (fun _ _ => None)
                     (fun _ => None)) st) 1000%Z H).
Defined.

Lemma time_to_open_at_open ds st closed d later :
  _trading_days st = (closed ++ d :: later)%list ->
  Forall (fun c => (snd c <= datetime st)%Z) closed ->
  datetime st = fst d -> (fst d < snd d)%Z ->
  get_time_to_open ds st = 0%Z.
Proof.
  intros Hdays Hclosed Hnow Hd. unfold get_time_to_open.
  rewrite Hdays, filter_first.
  - destruct (Z.ltb_spec (fst d) (datetime st)); [lia |].
    destruct (Z.leb_spec (fst d) (datetime st)); [reflexivity | lia].
  - eapply Forall_impl; [exact Hclosed |].
    intros c Hc. apply Z.ltb_ge. exact Hc.
  - apply Z.ltb_lt. lia.
Qed.

(** X14. Waiting for the market to open, before the open of the first
    session that has not closed: the clock lands on the open of that
    session less sixty seconds per minute of offset; with no offset the
    market is then open and the time to the open is zero. *)
Theorem await_market_to_open_lands (ds : DataSource) (s : Strategy)
    (timedelta : option Z) (st st' : State) (closed : list (Z * Z))
    (d : Z * Z) (later : list (Z * Z)) :
  _trading_days st = (closed ++ d :: later)%list ->
  Forall (fun c => (snd c <= datetime st)%Z) closed ->
  (datetime st < fst d)%Z -> (fst d < snd d)%Z ->
  (Source_eqb (SOURCE ds) PANDAS && (_timestep ds =? "day")%string)%bool
  = false ->
  _await_market_to_open ds s timedelta st = Done st' ->
  datetime st' = (fst d - 60 * offset_minutes timedelta)%Z /\
  (offset_minutes timedelta = 0%Z ->
   is_market_open st' = true /\ get_time_to_open ds st' = 0%Z).
Proof.
  intros Hdays Hclosed Hnow Hd Hskip. unfold _await_market_to_open.
  cbv zeta. rewrite Hskip.
  pose proof (process_pending_orders_same_clock ds s st) as Hk.
  destruct (process_pending_orders ds s st) as [st1 | e st1];
    [| discriminate].
  simpl in Hk. intros [= <-].
  rewrite (get_time_to_open_same_clock ds st st1 Hk).
  destruct Hk as (Hdt & Htd).
  assert (Hopen : get_time_to_open ds st = (fst d - datetime st)%Z).
  { unfold get_time_to_open. rewrite Hdays, filter_first.
    - destruct (Z.ltb_spec (fst d) (datetime st)); [lia |].
      destruct (Z.leb_spec (fst d) (datetime st)); [lia | reflexivity].
    - eapply Forall_impl; [exact Hclosed |].
      intros c Hc. apply Z.ltb_ge. exact Hc.
    - apply Z.ltb_lt. lia. }
  assert (Hland : datetime
            (_update_datetime
               (Number
                  match timedelta with
                  | Some t =>
                      if (t =? 0)%Z then get_time_to_open ds st
                      else (get_time_to_open ds st - 60 * t)%Z
                  | None => get_time_to_open ds st
                  end) st1)
            = (fst d - 60 * offset_minutes timedelta)%Z).
  { simpl. rewrite Hdt, Hopen.
    destruct timedelta as [t |]; simpl;
      [destruct (Z.eqb_spec t 0) |]; lia. }
  split; [exact Hland |].
  intros Hoff. rewrite Hoff in Hland.
  replace (fst d - 60 * 0)%Z with (fst d) in Hland by lia.
  match type of Hland with datetime ?x = _ => set (st' := x) in * end.
  assert (Hdays' : _trading_days st' = (closed ++ d :: later)%list)
    by (subst st'; simpl; congruence).
  split.
  - unfold is_market_open. apply existsb_exists. exists d. split.
    + rewrite Hdays'. apply in_or_app. right. left. reflexivity.
    + rewrite Hland.
      apply andb_true_iff. split; [apply Z.leb_le | apply Z.ltb_lt]; lia.
  - apply (time_to_open_at_open ds st' closed d later Hdays'); try lia.
    eapply Forall_impl; [exact Hclosed |].
    intros c Hc. simpl in Hc. lia.
Qed.

Lemma await_market_to_open_lands_witness :
  let st := mkState ∅ 0 [] [] 0 [] 3000 [(900, 2000); (4000, 9000)]%Z in
  let ds := mkDataSource YAHOO "minute" 0 20000 (fun _ _ => None)
              (fun _ => None) in
  let s := mkStrategy "s" [] [] 5 in
  datetime (final (_await_market_to_open ds s None st)) = 4000%Z /\
  is_market_open (final (_await_market_to_open ds s None st)) = true.
Proof.
  intros st ds s.
  assert (Hc : Forall (fun c : Z * Z => (snd c <= datetime st)%Z)
                 [(900, 2000)%Z]).
  { repeat constructor. intros E; discriminate E. }
  destruct (await_market_to_open_lands ds s None st _
              [(900, 2000)%Z] (4000, 9000)%Z [] eq_refl Hc eq_refl eq_refl
              eq_refl eq_refl) as (Hland & Hopen).
  split; [exact Hland | exact (proj1 (Hopen eq_refl))].
Defined.

(** X15. Waiting for the market to close, with the first session that has
    not ended at hand: inside the session the clock lands on its close less
    sixty seconds per minute of offset; before its open the clock does not
    advance at all, it only goes back by the offset. *)
Theorem await_market_to_close_lands (ds : DataSource) (s : Strategy)
    (timedelta : option Z) (st st' : State) (ended : list (Z * Z))
    (d : Z * Z) (later : list (Z * Z)) :
  _trading_days st = (ended ++ d :: later)%list ->
  Forall (fun c => (snd c < datetime st)%Z) ended ->
  (datetime st <= snd d)%Z ->
  (Source_eqb (SOURCE ds) PANDAS && (_timestep ds =? "day")%string)%bool
  = false ->
  _await_market_to_close ds s timedelta st = Done st' ->
  ((fst d <= datetime st)%Z ->
   datetime st' = (snd d - 60 * offset_minutes timedelta)%Z) /\
  ((datetime st < fst d)%Z ->
   datetime st' = (datetime st - 60 * offset_minutes timedelta)%Z).
Proof.
  intros Hdays Hended Hnow Hskip. unfold _await_market_to_close.
  cbv zeta. rewrite Hskip.
  pose proof (process_pending_orders_same_clock ds s st) as Hk.
  destruct (process_pending_orders ds s st) as [st1 | e st1];
    [| discriminate].
  simpl in Hk. intros [= <-].
  rewrite (get_time_to_close_same_clock st st1 Hk).
  destruct Hk as (Hdt & Htd).
  assert (Hclose : get_time_to_close st
                   = if (datetime st <? fst d)%Z then None
                     else Some (snd d - datetime st)%Z).
  { unfold get_time_to_close. rewrite Hdays, filter_first; [reflexivity | |].
    - eapply Forall_impl; [exact Hended |].
      intros c Hc. apply Z.leb_gt. exact Hc.
    - apply Z.leb_le. exact Hnow. }
  rewrite Hclose. simpl. rewrite Hdt.
  split; intros H;
    destruct (Z.ltb_spec (datetime st) (fst d)); try lia;
    destruct timedelta; simpl; lia.
Qed.

Lemma await_market_to_close_lands_witness :
  let st := mkState ∅ 0 [] [] 0 [] 1000 [(900, 2000)]%Z in
  let ds := mkDataSource YAHOO "minute" 0 20000 (fun _ _ => None)
              (fun _ => None) in
  let s := mkStrategy "s" [] [] 5 in
  datetime (final (_await_market_to_close ds s (Some 5%Z) st)) = 1700%Z.
Proof.
  intros st ds s.
  assert (Hnow : (datetime st <= snd (900, 2000)%Z)%Z)
    by (intros E; discriminate E).
  assert (Hin : (fst (900, 2000)%Z <= datetime st)%Z)
    by (intros E; discriminate E).
  destruct (await_market_to_close_lands ds s (Some 5%Z) st _
              [] (900, 2000)%Z [] eq_refl (List.Forall_nil _) Hnow eq_refl eq_refl)
    as (Hland & _).
  exact (Hland Hin).
Defined.

(** ** Option cash settlement, continued *)

Lemma Qmult_neg_pos (a x : Q) : a < 0 -> 0 < x -> a * x < 0.
Proof.
  intros Ha Hx. assert (H : 0 < (- a) * x) by (apply Qmult_lt_0_compat; lra).
  assert (E : (- a) * x == - (a * x)) by ring. lra.
Qed.

Lemma Qmult_neg_neg (a x : Q) : a < 0 -> x < 0 -> 0 < a * x.
Proof.
  intros Ha Hx.
  assert (H : 0 < (- a) * (- x)) by (apply Qmult_lt_0_compat; lra).
  assert (E : (- a) * (- x) == a * x) by ring. lra.
Qed.

Lemma Qmult_nonneg_neg (a x : Q) : 0 <= a -> x < 0 -> a * x <= 0.
Proof.
  intros Ha Hx.
  assert (H : 0 <= a * (- x)) by (apply Qmult_le_0_compat; lra).
  assert (E : a * (- x) == - (a * x)) by ring. lra.
Qed.

(** The adjusted profit or loss, by the sign of the profit or loss per
    contract: the product as the code computes it when the contract is in
    the money, nothing when it is out of the money; for a long and for a
    short position alike. *)
Lemma adjust_by_moneyness (q m per : Q) :
  0 < m ->
  (0 <= per -> adjust_profit_loss q (per * q * m) = per * q * m) /\
  (per <= 0 -> adjust_profit_loss q (per * q * m) == 0).
Proof.
  intros Hm. unfold adjust_profit_loss.
  assert (Hraw : per * q * m == per * (q * m)) by ring.
  destruct (Qlt_le_dec 0 q) as [Hq | Hq];
    [| destruct (Qlt_le_dec q 0) as [Hq' | Hq']].
  - assert (Hx : 0 < q * m) by (apply Qmult_lt_0_compat; assumption).
    rewrite (proj2 (Qlt_bool_iff 0 q) Hq).
    rewrite (proj2 (Qlt_bool_false q 0)) by lra.
    split; intros Hp.
    + pose proof (Qmult_le_0_compat per (q * m) Hp (Qlt_le_weak _ _ Hx)).
      rewrite (proj2 (Qlt_bool_false (per * q * m) 0)) by lra.
      reflexivity.
    + destruct (Qlt_bool (per * q * m) 0) eqn:E; simpl; [reflexivity |].
      apply Qlt_bool_false in E.
      destruct (Qlt_le_dec per 0) as [Hp' | Hp'].
      * pose proof (Qmult_neg_pos per (q * m) Hp' Hx). lra.
      * assert (E0 : per == 0) by lra. rewrite E0. ring.
  - assert (Hx : q * m < 0).
    { assert (E : q * m == m * q) by ring.
      pose proof (Qmult_neg_pos q m Hq' Hm). lra. }
    rewrite (proj2 (Qlt_bool_false 0 q)) by lra.
    rewrite (proj2 (Qlt_bool_iff q 0) Hq').
    split; intros Hp.
    + pose proof (Qmult_nonneg_neg per (q * m) Hp Hx).
      rewrite (proj2 (Qlt_bool_false 0 (per * q * m))) by lra.
      reflexivity.
    + destruct (Qlt_bool 0 (per * q * m)) eqn:E; simpl; [reflexivity |].
      apply Qlt_bool_false in E.
      destruct (Qlt_le_dec per 0) as [Hp' | Hp'].
      * pose proof (Qmult_neg_neg per (q * m) Hp' Hx). lra.
      * assert (E0 : per == 0) by lra. rewrite E0. ring.
  - assert (E : q == 0) by lra.
    rewrite (proj2 (Qlt_bool_false 0 q)) by lra.
    rewrite (proj2 (Qlt_bool_false q 0)) by lra. simpl.
    split; intros _; [reflexivity | rewrite E; ring].
Qed.

(** X16. Whether an expiring option position pays is decided by the sign
    of the profit or loss per contract alone ([U - strike] for a CALL,
    [strike - U] otherwise), for a long and for a short position alike:
    with a positive multiplier, when it is not negative the cash changes
    by the product the code computes, per contract times the signed
    quantity times the multiplier, with no clipping (the holder receives,
    the writer pays); when it is not positive the cash is left as it is
    and the CASH_SETTLED event has price zero. *)
Theorem cash_settlement_intrinsic (ds : DataSource) (s : Strategy)
    (position : Position) (st : State) (U : Q) :
  asset_type (pos_asset position) = "option" ->
  get_last_price ds (stock_Asset (symbol (pos_asset position))) = Some U ->
  ~ pos_quantity position == 0 ->
  (0 < multiplier (pos_asset position))%Z ->
  let q := pos_quantity position in
  let m := inject_Z (multiplier (pos_asset position)) in
  let per :=
    if (right (pos_asset position) =? "CALL")%string
    then U - strike (pos_asset position)
    else strike (pos_asset position) - U in
  exists st' order price,
    cash_settle_options_contract ds s position st = Done st' /\
    stream st'
    = (stream st
       ++ [mkEvent CASH_SETTLED order (Some price) (Some (Qabs q))])%list /\
    (0 <= per -> cash st' = cash st + per * q * m) /\
    (per <= 0 -> cash st' == cash st /\ price == 0).
Proof.
  intros Ha HU Hq Hm q m per.
  assert (Hm0 : 0 < m) by (subst m; unfold Qlt; simpl; lia).
  assert (Hm1 : ~ m == 0) by lra.
  destruct (adjust_by_moneyness q m per Hm0) as (Hin & Hout).
  assert (Hraw : position_profit_loss position U = per * q * m)
    by reflexivity.
  unfold cash_settle_options_contract.
  rewrite Ha, HU. cbn [String.eqb Ascii.eqb Bool.eqb negb create_order alloc].
  fold q. rewrite Hraw.
  rewrite (py_div_ok _ q Hq). cbn [mbind result_bind].
  fold m. rewrite (py_div_ok _ m Hm1).
  eexists _, _, _. split; [reflexivity |].
  rewrite stream_dispatch.
  match goal with |- context [dispatch ?ev ?st0] =>
    destruct (dispatch_frame ev st0) as (Hc & _); rewrite Hc end.
  split; [reflexivity |].
  cbn [cash set_next_id set_orders _set_cash_position].
  split.
  - intros Hp. rewrite (Hin Hp). reflexivity.
  - intros Hp. specialize (Hout Hp). split.
    + rewrite Hout. ring.
    + rewrite Hout.
      assert (E : 0 / q / m == 0) by (field; auto).
      rewrite E. reflexivity.
Qed.

Lemma cash_settlement_intrinsic_witness :
  let put := mkAsset "SPY" "option" (Some 19000%Z) 100 "PUT" 100 in
  let position := mkPosition "s" put (-2) [] in
  let ds := mkDataSource PANDAS "minute" 0 10 (fun _ _ => None)
              (fun _ => Some 97) in
  let s := mkStrategy "s" [] [] 5 in
  let st := mkState ∅ 0 [] [position] 1000 [] 0 [] in
  exists st',
    cash_settle_options_contract ds s position st = Done st' /\
    cash st' == 400.
Proof.
  intros put position ds s st.
  assert (Hq : ~ pos_quantity position == 0) by discriminate.
  assert (Hper : 0 <= 100 - 97) by (intros E; discriminate E).
  destruct (cash_settlement_intrinsic ds s position st 97 eq_refl eq_refl
              Hq eq_refl)
    as (st' & order & price & Hrun & _ & Hcash & _).
  exists st'. split; [exact Hrun |]. rewrite (Hcash Hper). reflexivity.
Defined.

Lemma cash_settle_cash ds s position st :
  cash (final (cash_settle_options_contract ds s position st)) = cash st \/
  exists U,
    cash (final (cash_settle_options_contract ds s position st))
    = cash st + adjust_profit_loss (pos_quantity position)
                  (position_profit_loss position U).
Proof.
  unfold cash_settle_options_contract.
  destruct (negb _); [left; reflexivity |].
  destruct (get_last_price ds _) as [U |]; [| left; reflexivity].
  right. exists U. cbn [create_order alloc].
  destruct (_ ← py_div _ _; py_div _ _) as [per_contract | e]; simpl;
    reflexivity.
Qed.

Lemma adjust_profit_loss_sign q pl :
  (0 <= q -> pl == 0 \/ 0 < q -> 0 <= adjust_profit_loss q pl) /\
  (q <= 0 -> pl == 0 \/ q < 0 -> adjust_profit_loss q pl <= 0).
Proof.
  unfold adjust_profit_loss.
  destruct (Qlt_bool 0 q) eqn:E1, (Qlt_bool pl 0) eqn:E2,
           (Qlt_bool q 0) eqn:E3, (Qlt_bool 0 pl) eqn:E4;
    simpl; to_order; split; intros; lra.
Qed.

(** X17. Settling expired contracts never takes cash for a position that
    is not short and never gives cash for a position that is not long:
    when every position has a quantity of zero or more the cash does not
    go down, when every one has zero or less it does not go up; whether
    the pass returns or raises. *)
Theorem expired_contracts_cash_sign (ds : DataSource) (s : Strategy)
    (st : State) :
  (Forall (fun p => 0 <= pos_quantity p) (positions st) ->
   cash st <= cash (final (process_expired_option_contracts ds s st))) /\
  (Forall (fun p => pos_quantity p <= 0) (positions st) ->
   cash (final (process_expired_option_contracts ds s st)) <= cash st).
Proof.
  assert (Hraw : forall position U, pos_quantity position == 0 ->
            position_profit_loss position U == 0).
  { intros position U E. unfold position_profit_loss. rewrite E. ring. }
  assert (Hone : forall position st0,
            (0 <= pos_quantity position ->
             cash st0
             <= cash (final (cash_settle_options_contract ds s position st0)))
            /\
            (pos_quantity position <= 0 ->
             cash (final (cash_settle_options_contract ds s position st0))
             <= cash st0)).
  { intros position st0.
    destruct (cash_settle_cash ds s position st0) as [-> | [U ->]];
      [split; intros; lra |].
    destruct (adjust_profit_loss_sign (pos_quantity position)
                (position_profit_loss position U)) as (Hlong & Hshort).
    split; intros Hq.
    - assert (position_profit_loss position U == 0 \/ 0 < pos_quantity position).
      { destruct (Qlt_le_dec 0 (pos_quantity position)); [right; assumption |].
        left. apply Hraw. lra. }
      specialize (Hlong Hq H). lra.
    - assert (position_profit_loss position U == 0 \/ pos_quantity position < 0).
      { destruct (Qlt_le_dec (pos_quantity position) 0); [right; assumption |].
        left. apply Hraw. lra. }
      specialize (Hshort Hq H). lra. }
  unfold process_expired_option_contracts, get_tracked_positions.
  destruct (negb _); [simpl; split; intros; lra |].
  generalize (positions st) as ps. intros ps. revert st.
  induction ps as [| position rest IH]; intros st; simpl;
    [split; intros; lra |].
  assert (Hrest : (Forall (fun p => 0 <= pos_quantity p) (position :: rest) ->
                   Forall (fun p => 0 <= pos_quantity p) rest) /\
                  (Forall (fun p => pos_quantity p <= 0) (position :: rest) ->
                   Forall (fun p => pos_quantity p <= 0) rest)).
  { split; intros H; inversion H; assumption. }
  assert (Hskip : (Forall (fun p => 0 <= pos_quantity p) (position :: rest) ->
                   cash st <= cash (final (expire_positions ds s rest st))) /\
                  (Forall (fun p => pos_quantity p <= 0) (position :: rest) ->
                   cash (final (expire_positions ds s rest st)) <= cash st)).
  { destruct (IH st) as (I1 & I2). destruct Hrest. split; auto. }
  destruct (expiration (pos_asset position)) as [e |]; [| exact Hskip].
  destruct (e <=? date_of (datetime st))%Z; [| exact Hskip].
  destruct (get_time_to_close st) as [ttc |]; [| exact Hskip].
  destruct (_ && _); [exact Hskip |].
  destruct (Hone position st) as (H1 & H2).
  destruct (cash_settle_options_contract ds s position st) as [st1 | e1 st1];
    simpl in *.
  - destruct (IH st1) as (I1 & I2). destruct Hrest as (R1 & R2).
    split; intros H; inversion H; subst.
    + specialize (I1 (R1 H)). specialize (H1 ltac:(assumption)). lra.
    + specialize (I2 (R2 H)). specialize (H2 ltac:(assumption)). lra.
  - split; intros H; inversion H; subst; auto.
Qed.

Lemma expired_contracts_cash_sign_witness :
  let call := mkAsset "SPY" "option" (Some 0%Z) 100 "CALL" 100 in
  let position := mkPosition "s" call 1 [] in
  let ds := mkDataSource PANDAS "minute" 0 5000 (fun _ _ => None)
              (fun _ => Some 107) in
  let s := mkStrategy "s" [] [] 5 in
  let st := mkState ∅ 0 [] [position] 1000 [] 1900 [(0, 2000)%Z] in
  cash (final (process_expired_option_contracts ds s st)) == 1700 /\
  cash st <= cash (final (process_expired_option_contracts ds s st)).
Proof.
  intros call position ds s st.
  assert (Hlong : Forall (fun p => 0 <= pos_quantity p) (positions st)).
  { repeat constructor. intros E; discriminate E. }
  split; [reflexivity |].
  exact (proj1 (expired_contracts_cash_sign ds s st) Hlong).
Defined.

(** X18. Settling expired contracts leaves the state as it is when no
    position is due: a position is not settled when it has no expiration
    or expires after today, while the market has not opened, on its
    expiration day with more than [minutes_before_closing] minutes left to
    the close, or when it is not an option contract. *)
Theorem nothing_due_nothing_settled (ds : DataSource) (s : Strategy)
    (st : State) :
  Forall (not_due s st) (positions st) ->
  process_expired_option_contracts ds s st = Done st.
Proof.
  unfold process_expired_option_contracts, get_tracked_positions.
  destruct (negb _); [reflexivity |].
  generalize (positions st) as ps.
  induction ps as [| position rest IH]; intros Hall; simpl; [reflexivity |].
  inversion Hall as [| ? ? Hp Hrest]; subst. specialize (IH Hrest).
  destruct Hp as [He | [(e & He & Hlater) | [Hc | [(t & He & Hc & Ht) | Ha]]]].
  - rewrite He. exact IH.
  - rewrite He. destruct (Z.leb_spec e (date_of (datetime st))); [lia |].
    exact IH.
  - destruct (expiration (pos_asset position)) as [e |]; [| exact IH].
    destruct (e <=? date_of (datetime st))%Z; [| exact IH].
    rewrite Hc. exact IH.
  - rewrite He, Hc, Z.leb_refl, Z.eqb_refl.
    destruct (Z.ltb_spec (minutes_before_closing s * 60) t); [| lia].
    exact IH.
  - destruct (expiration (pos_asset position)) as [e |]; [| exact IH].
    destruct (e <=? date_of (datetime st))%Z; [| exact IH].
    destruct (get_time_to_close st) as [ttc |]; [| exact IH].
    destruct (_ && _); [exact IH |].
    unfold cash_settle_options_contract.
    apply String.eqb_neq in Ha. rewrite Ha. simpl. exact IH.
Qed.

Lemma nothing_due_nothing_settled_witness :
  let call := mkAsset "SPY" "option" (Some 0%Z) 100 "CALL" 100 in
  let position := mkPosition "s" call 1 [] in
  let ds := mkDataSource PANDAS "minute" 0 5000 (fun _ _ => None)
              (fun _ => Some 107) in
  let s := mkStrategy "s" [] [] 5 in
  let st := mkState ∅ 0 [] [position] 1000 [] 1000 [(0, 2000)%Z] in
  get_time_to_close st = Some 1000%Z /\
  process_expired_option_contracts ds s st = Done st.
Proof.
  intros call position ds s st.
  split; [reflexivity |].
  apply (nothing_due_nothing_settled ds s st).
  constructor; [| constructor]. right. right. right. left.
  exists 1000%Z. split; [reflexivity |]. split; [reflexivity |].
  reflexivity.
Defined.

(** * The ThetaData helper *)

Section TradingDates.

Import thetadata_helper.

Variable schedule : string -> Z -> Z -> list Z.

(** X19. For a crypto asset the trading dates are all the days from the
    date of the start to the date of the end, in order: the day at
    position [i] is the start date plus [i], there are
    [end date - start date + 1] of them, and none when the end date is
    before the start date.  No calendar is consulted. *)
Theorem crypto_trades_every_day (asset : Asset) (start end_ : Z) :
  asset_type asset = "crypto" ->
  exists dates,
    get_trading_dates schedule asset start end_ = Ok dates /\
    length dates = Z.to_nat (date_of end_ - date_of start + 1) /\
    (forall i d, dates !! i = Some d <->
       d = (date_of start + Z.of_nat i)%Z /\
       (date_of start + Z.of_nat i <= date_of end_)%Z) /\
    ((date_of end_ < date_of start)%Z -> dates = []).
Proof.
  intros Ha. unfold get_trading_dates. rewrite Ha; simpl.
  eexists. split; [reflexivity |].
  change (fun x : Z => (date_of start + x)%Z) with (Z.add (date_of start)).
  rewrite fmap_add_seqZ, Z.add_0_r.
  split; [apply length_seqZ |]. split.
  - intros i d. rewrite lookup_seqZ. split; intros (-> & H); (split; [reflexivity | lia]).
  - intros Hlt. apply seqZ_nil. lia.
Qed.

Lemma StronglySorted_le_NoDup (l : list Z) :
  StronglySorted Z.le l -> NoDup l -> StronglySorted Z.lt l.
Proof.
  induction 1 as [| x l Hs IH Hx]; intros Hnd; constructor.
  - apply IH. apply NoDup_cons in Hnd. apply Hnd.
  - apply NoDup_cons in Hnd as (Hnin & _).
    rewrite Forall_forall in Hx |- *. intros y Hy.
    specialize (Hx y Hy).
    assert (x <> y) by (intros ->; contradiction). lia.
Qed.

Lemma StronglySorted_filter (P : Z -> bool) (l : list Z) :
  StronglySorted Z.lt l -> StronglySorted Z.lt (List.filter P l).
Proof.
  induction 1 as [| x l Hs IH Hx]; simpl; [constructor |].
  destruct (P x); [| exact IH].
  constructor; [exact IH |].
  rewrite Forall_forall in Hx |- *. intros y Hy.
  apply list_elem_of_In, filter_In in Hy. apply Hx, list_elem_of_In, Hy.
Qed.

(** X20. With cached rows at hand, the missing dates are exactly the
    trading dates of which the cache has no row, up to the expiration for
    an option, each once and in increasing order.  With no cache, or an
    empty one, the trading dates are returned as they are, for an option
    also those after its expiration. *)
Theorem missing_dates_spec (rows : list Row) (asset : Asset)
    (start end_ : Z) (trading_dates : list Z) :
  get_trading_dates schedule asset start end_ = Ok trading_dates ->
  (asset_type asset = "option" -> is_Some (expiration asset)) ->
  get_missing_dates schedule None asset start end_ = Ok trading_dates /\
  get_missing_dates schedule (Some []) asset start end_ = Ok trading_dates /\
  (rows <> [] ->
   exists missing,
     get_missing_dates schedule (Some rows) asset start end_ = Ok missing /\
     StronglySorted Z.lt missing /\
     forall d, In d missing <->
       In d trading_dates /\
       ~ In d (List.map (fun r => date_of (index r)) rows) /\
       (asset_type asset = "option" ->
        forall e, expiration asset = Some e -> (d <= e)%Z)).
Proof.
  intros Ht Hexp. unfold get_missing_dates. rewrite Ht.
  cbn [mbind result_bind].
  split; [reflexivity |]. split; [reflexivity |].
  intros Hrows. destruct rows as [| r rows']; [contradiction |].
  set (cached := List.map (fun r => date_of (index r)) (r :: rows')).
  set (diff := list_to_set trading_dates ∖ list_to_set cached : gset Z).
  assert (Hsorted : StronglySorted Z.lt (merge_sort Z.le (elements diff))).
  { apply StronglySorted_le_NoDup.
    - apply StronglySorted_merge_sort; apply _.
    - rewrite merge_sort_Permutation. apply NoDup_elements. }
  assert (Hin : forall d, In d (merge_sort Z.le (elements diff)) <->
                  In d trading_dates /\ ~ In d cached).
  { intros d. rewrite <- !list_elem_of_In.
    rewrite merge_sort_Permutation, elem_of_elements.
    subst diff. rewrite elem_of_difference, !elem_of_list_to_set.
    reflexivity. }
  destruct (asset_type asset =? "option")%string eqn:Ea.
  - apply String.eqb_eq in Ea. destruct (Hexp Ea) as [e He]. rewrite He.
    eexists. split; [reflexivity |].
    split; [apply StronglySorted_filter, Hsorted |].
    intros d. rewrite filter_In, Hin, Z.leb_le. split.
    + intros ((H1 & H2) & H3). splits; auto.
      intros _ e' [= <-]. exact H3.
    + intros (H1 & H2 & H3). splits; auto.
  - apply String.eqb_neq in Ea.
    eexists. split; [reflexivity |]. split; [exact Hsorted |].
    intros d. rewrite Hin. split.
    + intros (H1 & H2). splits; auto. intros E; contradiction.
    + intros (H1 & H2 & _). auto.
Qed.

End TradingDates.

Lemma crypto_trades_every_day_witness :
  let btc := mkAsset "BTC" "crypto" None 0 "" 1 in
  thetadata_helper.get_trading_dates (fun _ _ _ => []) btc (86400 * 10) (86400 * 12 + 5)
  = Ok [10; 11; 12]%Z.
Proof.
  intros btc.
  destruct (crypto_trades_every_day (fun _ _ _ => []) btc (86400 * 10)
              (86400 * 12 + 5) eq_refl) as (dates & Hrun & _).
  rewrite Hrun. vm_compute in Hrun. injection Hrun as <-. reflexivity.
Defined.

Lemma missing_dates_spec_witness :
  let spy := mkAsset "SPY" "option" (Some 4%Z) 100 "CALL" 100 in
  let schedule := fun (_ : string) (_ _ : Z) => [1; 2; 3; 5; 4; 9]%Z in
  let rows := [mkRow (86400 * 2) 0 0 0 0 0] in
  thetadata_helper.get_missing_dates schedule (Some rows) spy 0 0
  = Ok [1; 3; 4]%Z /\
  thetadata_helper.get_missing_dates schedule None spy 0 0
  = Ok [1; 2; 3; 5; 4; 9]%Z.
Proof.
  intros spy schedule rows.
  assert (Hexp : asset_type spy = "option" -> is_Some (expiration spy))
    by (intros _; eexists; reflexivity).
  destruct (missing_dates_spec schedule rows spy 0 0 [1; 2; 3; 5; 4; 9]%Z
              eq_refl Hexp) as (Hnone & _ & _).
  split; [vm_compute; reflexivity | exact Hnone].
Defined.

Section Windows.

Import thetadata_helper.

Variable Frame : Type.
Variable len : Frame -> nat.
Variable fetch : Z -> Z -> attempt (option Frame).
Variable update_df : option Frame -> Frame -> attempt (option Frame).

Lemma clamp_bounds start end_ :
  (start <= end_)%Z ->
  (start <= clamp start end_ <= start + MAX_DAYS)%Z /\
  clamp start end_ = Z.min end_ (start + MAX_DAYS).
Proof.
  unfold clamp, MAX_DAYS.
  destruct (Z.ltb_spec (start + 30) end_); lia.
Qed.

Lemma clamp_full start : clamp start (start + MAX_DAYS) = (start + MAX_DAYS)%Z.
Proof.
  unfold clamp. destruct (Z.ltb_spec (start + MAX_DAYS) (start + MAX_DAYS));
    [lia | reflexivity].
Qed.

(** The first window of the loop is the one of its state. *)
Lemma request_loop_head asset final_date start end_ df_all w :
  fst (request_loop Frame len fetch update_df asset final_date
          start end_ df_all) !! 0%nat = Some w ->
  w = (start, clamp start end_).
Proof.
  funelim (request_loop Frame len fetch update_df asset final_date
          start end_ df_all); simpl; congruence.
Qed.

(** Whatever the first call does, it is made. *)
Lemma request_loop_nonempty asset final_date start end_ df_all :
  (start <= final_date)%Z ->
  exists tail,
    fst (request_loop Frame len fetch update_df asset final_date
          start end_ df_all)
    = (start, clamp start end_) :: tail.
Proof.
  funelim (request_loop Frame len fetch update_df asset final_date
          start end_ df_all); intros Hle;
    [lia | eexists; reflexivity ..].
Qed.

Lemma request_loop_bounds asset final_date start end_ df_all :
  (start <= end_)%Z ->
  Forall (fun w => (fst w <= snd w <= fst w + MAX_DAYS)%Z)
    (fst (request_loop Frame len fetch update_df asset final_date
          start end_ df_all)).
Proof.
  funelim (request_loop Frame len fetch update_df asset final_date
          start end_ df_all); intros Hle; simpl.
  - constructor.
  - repeat constructor; simpl; apply clamp_bounds; exact Hle.
  - repeat constructor; simpl; apply clamp_bounds; exact Hle.
  - constructor; [simpl; apply clamp_bounds; exact Hle |].
    match goal with IH : _ -> Forall _ _ |- _ => apply IH end.
    unfold MAX_DAYS; lia.
Qed.

(** From a state whose window is full, every window is full. *)
Lemma request_loop_full asset final_date start end_ df_all :
  end_ = (start + MAX_DAYS)%Z ->
  Forall (fun w => snd w = (fst w + MAX_DAYS)%Z)
    (fst (request_loop Frame len fetch update_df asset final_date
          start end_ df_all)).
Proof.
  funelim (request_loop Frame len fetch update_df asset final_date
          start end_ df_all); intros ->; simpl.
  - constructor.
  - repeat constructor; simpl; apply clamp_full.
  - repeat constructor; simpl; apply clamp_full.
  - constructor; [simpl; apply clamp_full |].
    match goal with IH : _ -> Forall _ _ |- _ => apply IH end.
    reflexivity.
Qed.

(** Only the first window is cut at the last missing date. *)
Lemma request_loop_later_full asset final_date start end_ df_all j w :
  fst (request_loop Frame len fetch update_df asset final_date
          start end_ df_all) !! S j = Some w ->
  snd w = (fst w + MAX_DAYS)%Z.
Proof.
  funelim (request_loop Frame len fetch update_df asset final_date
          start end_ df_all); simpl;
    intros Hj; try discriminate; try (destruct j; discriminate).
  match goal with
  | _ : context [request_loop _ _ _ _ ?a ?l ?s' ?e' ?d] |- _ =>
      pose proof (request_loop_full a l s' e' d eq_refl) as Hf
  end.
  rewrite Forall_forall in Hf.
  apply Hf. eapply list_elem_of_lookup_2, Hj.
Qed.

Lemma request_loop_adjacent asset final_date start end_ df_all i a b a' b' :
  fst (request_loop Frame len fetch update_df asset final_date
          start end_ df_all) !! i = Some (a, b) ->
  fst (request_loop Frame len fetch update_df asset final_date
          start end_ df_all) !! S i = Some (a', b') ->
  a' = (b + 1)%Z.
Proof.
  revert i a b a' b'.
  funelim (request_loop Frame len fetch update_df asset final_date
          start end_ df_all);
    intros i a b a' b' Hi Hs; simpl in Hi, Hs.
  - discriminate.
  - destruct i; discriminate.
  - destruct i; discriminate.
  - destruct i as [| j]; simpl in Hi, Hs.
    + injection Hi as <- <-.
      apply request_loop_head in Hs. injection Hs as -> _. reflexivity.
    + match goal with IH : forall i a b a' b', _ -> _ -> _ |- _ =>
        eapply IH; eassumption end.
Qed.

(** A call is followed by another only when its turn returned. *)
Lemma request_loop_followed asset final_date start end_ df_all i a b :
  fst (request_loop Frame len fetch update_df asset final_date
          start end_ df_all) !! i = Some (a, b) ->
  is_Some (fst (request_loop Frame len fetch update_df asset final_date
          start end_ df_all) !! S i) ->
  exists df df', loop_body Frame len fetch update_df asset a b df = Returns df'.
Proof.
  revert i a b.
  funelim (request_loop Frame len fetch update_df asset final_date
          start end_ df_all);
    intros i a b Hi [w Hs]; simpl in Hi, Hs.
  - discriminate.
  - destruct i; discriminate.
  - destruct i; discriminate.
  - destruct i as [| j]; simpl in Hi, Hs.
    + injection Hi as <- <-. eauto.
    + match goal with IH : forall i a b, _ -> _ -> _ |- _ =>
        eapply IH; [eassumption | eexists; eassumption] end.
Qed.

(** When the loop returns, no date up to the expiration was left out. *)
Lemma request_loop_covers asset final_date start end_ df_all df d :
  snd (request_loop Frame len fetch update_df asset final_date
          start end_ df_all) = Returns df ->
  (start <= end_)%Z -> (start <= d <= final_date)%Z ->
  (forall e, expiration asset = Some e -> (d <= e)%Z) ->
  exists w, In w (fst (request_loop Frame len fetch update_df asset final_date
          start end_ df_all)) /\
            (fst w <= d <= snd w)%Z.
Proof.
  revert df.
  funelim (request_loop Frame len fetch update_df asset final_date
          start end_ df_all);
    intros df Hret Hle Hd Hexp; simpl in Hret.
  - lia.
  - discriminate.
  - exists (start, clamp start end_). split; [left; reflexivity |]. simpl.
    destruct (Z.le_gt_cases d (clamp start end_)); [lia |].
    exfalso. unfold past_expiration in *.
    match goal with H : match ?x with _ => _ end = true |- _ =>
      destruct x as [e |]; [apply Z.ltb_lt in H | discriminate H] end.
    specialize (Hexp e eq_refl). unfold next_start in *. lia.
  - destruct (Z.le_gt_cases d (clamp start end_)).
    + exists (start, clamp start end_). split; [left; reflexivity |].
      simpl. lia.
    + match goal with IH : forall d0 df0, _ = Returns df0 -> _ |- _ =>
        destruct (IH d df) as (w & Hw & Hin) end.
      * exact Hret.
      * unfold MAX_DAYS; lia.
      * unfold next_start. lia.
      * exact Hexp.
      * exists w. split; [right; exact Hw | exact Hin].
Qed.

(** The url is bound for a stock and for an option only. *)
Lemma request_loop_unbound asset final_date start end_ df_all :
  (asset_type asset =? "stock")%string = false ->
  (asset_type asset =? "option")%string = false ->
  (start <= final_date)%Z ->
  request_loop Frame len fetch update_df asset final_date start end_ df_all
  = ([(start, clamp start end_)], Raises "UnboundLocalError").
Proof.
  intros Hs Ho Hle.
  assert (Hb : forall a b df,
            loop_body Frame len fetch update_df asset a b df
            = Raises "UnboundLocalError").
  { intros a b df. unfold loop_body, get_historical_data.
    rewrite Hs, Ho. reflexivity. }
  funelim (request_loop Frame len fetch update_df asset final_date
          start end_ df_all).
  - lia.
  - match goal with H : loop_body _ _ _ _ _ _ _ _ = Raises _ |- _ =>
      rewrite Hb in H; injection H as <- end.
    reflexivity.
  - match goal with H : loop_body _ _ _ _ _ _ _ _ = Returns _ |- _ =>
      rewrite Hb in H; discriminate H end.
  - match goal with H : loop_body _ _ _ _ _ _ _ _ = Returns _ |- _ =>
      rewrite Hb in H; discriminate H end.
Qed.

(** X21. The calls to [get_historical_data] made by the loop of
    [get_price_data], when the missing dates run from [first] to
    [final_date], whatever the requests and [update_df] return or raise.
    The first call is always made, for the window from [first] to
    [final_date] or [MAX_DAYS] days later, whichever comes first; every
    window spans at most [MAX_DAYS] days, and every window after the first
    exactly [MAX_DAYS], whatever the last missing date; each window starts
    the day after the one before it ends; and a call is followed by
    another only when its turn returned.  An exception stops the loop:
    for an asset that is neither a stock nor an option the first call
    raises [UnboundLocalError] and is the only one.  When the loop
    returns, every date from [first] to [final_date] that is not after the
    expiration of the asset lies in one of the windows. *)
Theorem request_windows_cover (asset : Asset) (missing_dates : list Z)
    (df_all : option Frame) (first final_date : Z) :
  head missing_dates = Some first ->
  last missing_dates = Some final_date ->
  (first <= final_date)%Z ->
  let run :=
    request_windows Frame len fetch update_df asset missing_dates df_all in
  let windows := fst run in
  (exists tail,
     windows = (first, Z.min final_date (first + MAX_DAYS)) :: tail) /\
  (forall i a b, windows !! i = Some (a, b) ->
     (a <= b <= a + MAX_DAYS)%Z /\
     ((0 < i)%nat -> b = (a + MAX_DAYS)%Z)) /\
  (forall i a b a' b',
     windows !! i = Some (a, b) -> windows !! S i = Some (a', b') ->
     a' = (b + 1)%Z) /\
  (forall i a b,
     windows !! i = Some (a, b) -> is_Some (windows !! S i) ->
     exists df df',
       loop_body Frame len fetch update_df asset a b df = Returns df') /\
  ((asset_type asset =? "stock")%string = false ->
   (asset_type asset =? "option")%string = false ->
   run = ([(first, Z.min final_date (first + MAX_DAYS))],
          Raises "UnboundLocalError")) /\
  (forall df d,
     snd run = Returns df ->
     (first <= d <= final_date)%Z ->
     (forall e, expiration asset = Some e -> (d <= e)%Z) ->
     exists a b, In (a, b) windows /\ (a <= d <= b)%Z).
Proof.
  intros Hh Hl Hle run windows. subst windows run. unfold request_windows.
  rewrite Hh, Hl.
  pose proof (proj2 (clamp_bounds first final_date Hle)) as Hclamp.
  split.
  { destruct (request_loop_nonempty asset final_date first final_date
                df_all Hle) as (tail & ->).
    exists tail. rewrite Hclamp. reflexivity. }
  split.
  { intros i a b Hi. split.
    - pose proof (request_loop_bounds asset final_date first final_date
                    df_all Hle) as Hb.
      rewrite Forall_forall in Hb.
      apply (Hb (a, b)). eapply list_elem_of_lookup_2, Hi.
    - intros Hpos. destruct i as [| j]; [lia |].
      exact (request_loop_later_full _ _ _ _ _ _ (a, b) Hi). }
  split; [apply request_loop_adjacent |].
  split; [apply request_loop_followed |].
  split.
  { intros Hs Ho. rewrite <- Hclamp.
    apply request_loop_unbound; assumption. }
  intros df d Hret Hd Hexp.
  destruct (request_loop_covers asset final_date first final_date df_all
              df d Hret Hle Hd Hexp) as ([a b] & Hin & Hab).
  exists a, b. split; assumption.
Qed.

End Windows.

Lemma request_windows_cover_witness :
  let quiet_service := fun _ _ : Z => thetadata_helper.Returns (@None nat) in
  let update_df := fun (df_all : option nat) (r : nat) =>
                     thetadata_helper.Returns (Some r) in
  let spy := stock_Asset "SPY" in
  let btc := mkAsset "BTC" "crypto" None 0 "" 1 in
  thetadata_helper.request_windows nat id quiet_service update_df spy
    [0; 5; 40]%Z None
  = ([(0, 30); (31, 61)]%Z, thetadata_helper.Returns None) /\
  (exists a b,
     In (a, b)
       (fst (thetadata_helper.request_windows nat id quiet_service update_df
               spy [0; 5; 40]%Z None)) /\
     (a <= 35 <= b)%Z) /\
  thetadata_helper.request_windows nat id quiet_service update_df btc
    [0; 5; 40]%Z None
  = ([(0, 30)]%Z, thetadata_helper.Raises "UnboundLocalError").
Proof.
  intros quiet_service update_df spy btc.
  assert (Hle : (0 <= 40)%Z) by (intros E; discriminate E).
  split; [reflexivity |].
  split; [| reflexivity].
  destruct (request_windows_cover nat id quiet_service update_df spy
              [0; 5; 40]%Z None 0 40 eq_refl eq_refl Hle)
    as (_ & _ & _ & _ & _ & Hcover).
  apply (Hcover None 35%Z);
    [reflexivity | split; intros E; discriminate E | discriminate].
Defined.
